(** * Message cache: the [MessageManager] of [src/server/utils/sqlite.ts]

    A shallow embedding of the message persistence layer: the validation
    functions, the retry wrapper keyed by operation, and the operations on the
    [messages] table, followed by the properties of the specification that are
    settled on it.

    Conventions.
    - A JavaScript [number] is either an integer value or something
      [Number.isInteger] rejects (a fraction, [NaN], an infinity).
    - Program text (error messages, retry keys) is a [string]; message
      content, which is caller data, is a sequence of UTF-16 code units.
    - An asynchronous method is a function from the world before the call to
      the outcome and the world after it; [None] means that the recursion
      budget of the model ran out, it is not a behaviour of the program.
      This is a call that settles before the next one is issued; calls that
      overlap are modelled turn by turn, from one [await] to the next, in
      the section on calls that overlap.
    - The storage engine ([bun:sqlite]) is outside the repository.  Each
      statement it executes consults a script of pending engine conditions, so
      that a statement can raise ("database is locked", ...) or run.  A
      string bound to a TEXT column is stored in UTF-8, so that a surrogate
      without its partner is read back as U+FFFD. *)

From Stdlib Require Import ZArith NArith List Bool Lia Ascii String DecimalString.
From Stdlib Require Import DecimalPos DecimalZ.
From stdpp Require Import gmap strings.

Local Open Scope Z_scope.

(** ** Constants of the module *)

Definition MAX_CONTENT_LENGTH : Z := 1000000.
Definition MAX_RETRIES : Z := 3.
Definition RETRY_DELAY : Z := 1000.

(** [Number.MAX_SAFE_INTEGER], 2^53 - 1. *)
Definition MAX_SAFE_INTEGER : Z := 9007199254740991.

(** ** Numbers *)

(** A [number]: an integer value, or a value that is not an integer, kept
    with the text a template literal prints for it ("NaN", "0.5", ...). *)
Inductive number :=
| Integer (z : Z)
| NonInteger (repr : string).

#[global] Instance number_eq_dec : EqDecision number.
Proof. solve_decision. Defined.

Definition isInteger (x : number) : bool :=
  match x with Integer _ => true | NonInteger _ => false end.

(** The text of a number inside a template literal.  For an integer this is
    its decimal notation (what JavaScript prints below 10^21, which covers
    every identifier that passes validation). *)
Definition toString (x : number) : string :=
  match x with
  | Integer z => NilZero.string_of_int (Z.to_int z)
  | NonInteger repr => repr
  end.

(** ** Content strings: UTF-16 code units *)

Definition code_units (s : string) : list N :=
  map (fun c => N_of_ascii c) (String.list_ascii_of_string s).

(** White space and line terminators, the characters [String.prototype.trim]
    strips. *)
Definition isWhiteSpace (u : N) : bool :=
  ((9 <=? u) && (u <=? 13) || (u =? 32) || (u =? 160) || (u =? 5760)
   || (8192 <=? u) && (u <=? 8202) || (u =? 8232) || (u =? 8233)
   || (u =? 8239) || (u =? 8287) || (u =? 12288) || (u =? 65279))%N.

Fixpoint trimStart (s : list N) : list N :=
  match s with
  | u :: s' => if isWhiteSpace u then trimStart s' else s
  | [] => []
  end.

Definition trimEnd (s : list N) : list N := rev (trimStart (rev s)).

Definition trim (s : list N) : list N := trimEnd (trimStart s).

Definition isHighSurrogate (u : N) : bool :=
  ((55296 <=? u) && (u <=? 56319))%N.
Definition isLowSurrogate (u : N) : bool :=
  ((56320 <=? u) && (u <=? 57343))%N.

(** [Buffer.byteLength(s, 'utf8')]: one byte below U+0080, two below U+0800,
    four for a surrogate pair, three otherwise (a lone surrogate is encoded
    as U+FFFD). *)
Fixpoint byteLength (s : list N) : Z :=
  match s with
  | [] => 0
  | u :: s' =>
      if (u <? 128)%N then 1 + byteLength s'
      else if (u <? 2048)%N then 2 + byteLength s'
      else if isHighSurrogate u then
        match s' with
        | l :: s'' => if isLowSurrogate l then 4 + byteLength s''
                      else 3 + byteLength s'
        | [] => 3
        end
      else 3 + byteLength s'
  end.

(** The text a TEXT column holds for a string: the column stores the UTF-8
    encoding, in which a surrogate without its partner has no encoding of
    its own and becomes U+FFFD; reading the column back gives the string
    [String.prototype.toWellFormed] computes. *)
Fixpoint toWellFormed (s : list N) : list N :=
  match s with
  | [] => []
  | u :: s' =>
      if isHighSurrogate u then
        match s' with
        | l :: s'' => if isLowSurrogate l then u :: l :: toWellFormed s''
                      else 65533%N :: toWellFormed s'
        | [] => [65533%N]
        end
      else if isLowSurrogate u then 65533%N :: toWellFormed s'
      else u :: toWellFormed s'
  end.


(** ** Errors and [String.prototype.includes] *)

Record Error := mkError { message : string }.

#[global] Instance Error_eq_dec : EqDecision Error.
Proof. solve_decision. Defined.

Fixpoint includes (s sub : string) : bool :=
  String.prefix sub s ||
  match s with
  | EmptyString => false
  | String _ s' => includes s' sub
  end.

Definition isRetryableError (error : Error) : bool :=
  includes (message error) "database is locked" ||
  includes (message error) "busy" ||
  includes (message error) "no response".

(** ** Stored rows and the world of a call *)

(** Modelled from the spec: the schema script [database/init.sql] and the
    type [DataMessages] are not part of the sources.  The table [messages]
    has the columns [message_id], [content], [created_at] and [updated_at]
    (section 6 of the specification) next to the engine's own [rowid], which
    the queries return as [id]; the statements of the manager are the only
    ones that touch the table. *)
Record Row := mkRow {
  rowid : Z;
  message_id : number;
  content : list N;
  created_at : number;
  updated_at : number
}.

#[global] Instance Row_eq_dec : EqDecision Row.
Proof. solve_decision. Defined.

Record World := mkWorld {
  database : list Row;              (* the rows of [messages], in storage order *)
  retryCount : gmap string Z;       (* [this.retryCount] *)
  clock : Z;                        (* what [Date.now()] returns *)
  pending : list (option string)    (* engine conditions of the coming statements *)
}.

Definition set_database (rows : list Row) (w : World) : World :=
  mkWorld rows (retryCount w) (clock w) (pending w).
Definition set_retryCount (m : gmap string Z) (w : World) : World :=
  mkWorld (database w) m (clock w) (pending w).
Definition set_clock (t : Z) (w : World) : World :=
  mkWorld (database w) (retryCount w) t (pending w).
Definition set_pending (p : list (option string)) (w : World) : World :=
  mkWorld (database w) (retryCount w) (clock w) p.

(** ** Asynchronous computations *)

Inductive Outcome (T : Type) :=
| Returned (v : T)
| Thrown (e : Error).
Arguments Returned {T} v.
Arguments Thrown {T} e.

Definition Promise (T : Type) : Type := World -> option (Outcome T * World).

Definition resolve {T} (v : T) : Promise T := fun w => Some (Returned v, w).
Definition throw {T} (e : Error) : Promise T := fun w => Some (Thrown e, w).

Definition andThen {A B} (m : Promise A) (k : A -> Promise B) : Promise B :=
  fun w =>
    match m w with
    | None => None
    | Some (Thrown e, w') => Some (Thrown e, w')
    | Some (Returned v, w') => k v w'
    end.

Notation "'await' x <- m ;> k" := (andThen m (fun x => k))
  (at level 10, x name, m at level 99, k at level 200).
Notation "m ;> k" := (andThen m (fun _ => k))
  (at level 100, k at level 200, right associativity).

(** A synchronous check that returns nothing or throws. *)
Definition check (r : option Error) : Promise unit :=
  match r with
  | None => resolve tt
  | Some e => throw e
  end.

(** [setTimeout(resolve, ms)]: the call resumes [ms] milliseconds later. *)
Definition sleep (ms : Z) : Promise unit :=
  fun w => Some (Returned tt, set_clock (clock w + ms) w).

(** ** The retry wrapper *)

Fixpoint retry {T} (fuel : nat) (operation : Promise T) (key : string)
  : Promise T :=
  fun w =>
    match fuel with
    | O => None
    | S fuel' =>
        match operation w with
        | None => None
        | Some (Returned v, w1) => Some (Returned v, w1)
        | Some (Thrown error, w1) =>
            let currentRetries := default 0 (retryCount w1 !! key) in
            if (currentRetries <? MAX_RETRIES) && isRetryableError error then
              let w2 := set_retryCount
                          (<[key := currentRetries + 1]> (retryCount w1)) w1 in
              (sleep RETRY_DELAY ;> retry fuel' operation key) w2
            else
              Some (Thrown error,
                    set_retryCount (delete key (retryCount w1)) w1)
        end
    end.

(** ** Validation *)

(** Comparison of two numbers.  The validators reach a comparison only after
    [Number.isInteger] accepted the operand; with an operand that is not an
    integer the comparison is false, as it is with [NaN]. *)
Definition ltb (x y : number) : bool :=
  match x, y with
  | Integer a, Integer b => a <? b
  | _, _ => false
  end.

Definition leb (x y : number) : bool :=
  match x, y with
  | Integer a, Integer b => a <=? b
  | _, _ => false
  end.

Definition validateMessageId (messageId : number) : option Error :=
  if negb (isInteger messageId) || leb messageId (Integer 0)
     || ltb (Integer MAX_SAFE_INTEGER) messageId
  then Some (mkError
          "Invalid message ID: must be a positive integer within safe range")
  else None.

Definition validateTimestamps (createdAt updatedAt : number) : option Error :=
  if negb (isInteger createdAt) || leb createdAt (Integer 0)
  then Some (mkError
          "Invalid created_at timestamp: must be a positive integer")
  else if negb (isInteger updatedAt) || leb updatedAt (Integer 0)
  then Some (mkError
          "Invalid updated_at timestamp: must be a positive integer")
  else if ltb updatedAt createdAt
  then Some (mkError
          "updated_at timestamp cannot be earlier than created_at timestamp")
  else None.

(** The parameter is typed [string] in the source, so the [typeof] guard of
    [validateContent] never fires and is not part of the model. *)
Definition validateContent (content : list N) : option Error :=
  let trimmedContent := trim content in
  if (length trimmedContent =? 0)%nat
  then Some (mkError "Content cannot be empty")
  else if byteLength content >? MAX_CONTENT_LENGTH
  then Some (mkError ("Content exceeds maximum length limit of "
                      +:+ toString (Integer MAX_CONTENT_LENGTH) +:+ " bytes"))
  else None.

(** ** Statements on the [messages] table *)

Definition matches (messageId : number) (r : Row) : bool :=
  bool_decide (message_id r = messageId).

(** [SELECT ... FROM messages WHERE message_id = ? LIMIT 1] *)
Definition select_one (messageId : number) (rows : list Row) : option Row :=
  find (matches messageId) rows.

(** [DELETE FROM messages WHERE message_id = ?]: the rows left and the number
    of rows removed. *)
Definition delete_where (messageId : number) (rows : list Row)
  : Z * list Row :=
  (Z.of_nat (length (List.filter (matches messageId) rows)),
   List.filter (fun r => negb (matches messageId r)) rows).

(** The [rowid] the engine gives to a new row: one more than the largest. *)
Definition next_rowid (rows : list Row) : Z :=
  fold_right Z.max 0 (map rowid rows) + 1.

(** [INSERT INTO messages (message_id, content, created_at, updated_at)
    VALUES (?, ?, ?, ?)]: the string bound to [content] is stored as text. *)
Definition insert_into (messageId : number) (text : list N)
    (createdAt updatedAt : number) (rows : list Row) : Z * list Row :=
  (1, rows ++ [mkRow (next_rowid rows) messageId (toWellFormed text)
                     createdAt updatedAt]).

(** [UPDATE messages SET content = ?, updated_at = ? WHERE message_id = ?]:
    the string bound to [content] is stored as text. *)
Definition update_where (text : list N) (updatedAt messageId : number)
    (rows : list Row) : Z * list Row :=
  (Z.of_nat (length (List.filter (matches messageId) rows)),
   map (fun r => if matches messageId r
                 then mkRow (rowid r) (message_id r) (toWellFormed text)
                            (created_at r) updatedAt
                 else r) rows).

(** Running a statement: the engine either raises the pending condition, or
    applies the statement to the table. *)
Definition consult : Promise unit :=
  fun w =>
    match pending w with
    | [] => Some (Returned tt, w)
    | None :: rest => Some (Returned tt, set_pending rest w)
    | Some msg :: rest => Some (Thrown (mkError msg), set_pending rest w)
    end.

Definition query {T} (stmt : list Row -> T) : Promise T :=
  consult ;> fun w => Some (Returned (stmt (database w)), w).

Definition run (stmt : list Row -> Z * list Row) : Promise Z :=
  consult ;>
  fun w => let '(changes, rows) := stmt (database w) in
           Some (Returned changes, set_database rows w).

(** [this.database.transaction(body)()]: if the body throws, the table is
    rolled back and the error is thrown again. *)
Definition transaction {T} (body : Promise T) : Promise T :=
  fun w =>
    match body w with
    | Some (Thrown e, w') => Some (Thrown e, set_database (database w) w')
    | r => r
    end.

Definition Date_now : Promise number :=
  fun w => Some (Returned (Integer (clock w)), w).

(** ** The operations of [MessageManager] *)

Definition messageExists (fuel : nat) (messageId : number) : Promise bool :=
  retry fuel
    (check (validateMessageId messageId) ;>
     await found <- query (select_one messageId) ;>
     resolve (bool_decide (found <> None)))
    ("messageExists_" +:+ toString messageId).

Definition deleteMessage (fuel : nat) (messageId : number) : Promise unit :=
  retry fuel
    (check (validateMessageId messageId) ;>
     await changes <- transaction (run (delete_where messageId)) ;>
     if changes =? 0 then throw (mkError "Message not found")
     else resolve tt)
    ("deleteMessage_" +:+ toString messageId).

Definition getMessage (fuel : nat) (messageId : number)
  : Promise (option Row) :=
  retry fuel
    (check (validateMessageId messageId) ;>
     query (select_one messageId))
    ("getMessage_" +:+ toString messageId).

Definition getMessages (fuel : nat) : Promise (list Row) :=
  retry fuel (query (fun rows => rows)) "getMessages".

Definition insertMessage (fuel : nat) (messageId : number) (content : list N)
    (createdTimestamp updatedTimestamp : number) : Promise unit :=
  retry fuel
    (check (validateMessageId messageId) ;>
     check (validateContent content) ;>
     check (validateTimestamps createdTimestamp updatedTimestamp) ;>
     await exists_ <- messageExists fuel messageId ;>
     if exists_ : bool
     then throw (mkError ("Message with ID " +:+ toString messageId
                          +:+ " already exists"))
     else
       transaction
         (run (insert_into messageId content createdTimestamp updatedTimestamp))
       ;> resolve tt)
    ("insertMessage_" +:+ toString messageId).

Definition updateMessage (fuel : nat) (messageId : number) (content : list N)
  : Promise unit :=
  retry fuel
    (check (validateMessageId messageId) ;>
     check (validateContent content) ;>
     await now <- Date_now ;>
     await changes <- transaction (run (update_where content now messageId)) ;>
     if changes =? 0
     then throw (mkError ("Message with ID " +:+ toString messageId
                          +:+ " not found"))
     else resolve tt)
    ("updateMessage_" +:+ toString messageId).

Definition getMessageCount (fuel : nat) : Promise Z :=
  retry fuel (query (fun rows => Z.of_nat (length rows))) "getMessageCount".

(** A manager that was just created, in front of a table and a clock. *)
Definition fresh (rows : list Row) (t : Z) (script : list (option string))
  : World :=
  mkWorld rows ∅ t script.

(** ** Opening the database: [initDatabase]

    The file system ([fs]) and the engine are outside the repository.  They
    are modelled by what the function can observe of them: the paths that
    exist, the text of the files, the SQL each database file has executed;
    [fs.mkdirSync], [fs.readFileSync], [new Database] and [exec] first
    consult a script of conditions and raise the pending one, if any.
    Opening a database file creates it when it does not exist, a text file
    that does not exist cannot be read, and the empty path neither exists
    nor can be created as a directory. *)

Record Env := mkEnv {
  MESSAGE_SQLITE_FILE : option string;  (* [Bun.env.MESSAGE_SQLITE_FILE] *)
  paths : gset string;                  (* what [fs.existsSync] finds *)
  texts : gmap string string;           (* the text files *)
  executed : gmap string (list string); (* SQL run on each database file *)
  raises : list (option string);        (* conditions of the coming calls *)
  logged : list string                  (* lines given to [logger] *)
}.

Definition IO (T : Type) : Type := Env -> Outcome T * Env.

Definition done_ {T} (v : T) : IO T := fun env => (Returned v, env).
Definition fail {T} (e : Error) : IO T := fun env => (Thrown e, env).

Definition next {A B} (m : IO A) (k : A -> IO B) : IO B :=
  fun env =>
    match m env with
    | (Thrown e, env') => (Thrown e, env')
    | (Returned v, env') => k v env'
    end.

Notation "'perform' x <- m ;> k" := (next m (fun x => k))
  (at level 10, x name, m at level 99, k at level 200).
Notation "m ;>> k" := (next m (fun _ => k))
  (at level 100, k at level 200, right associativity).

(** [try { body } catch (error) { handler }] *)
Definition try_catch {T} (body : IO T) (handler : Error -> IO T) : IO T :=
  fun env =>
    match body env with
    | (Thrown e, env') => handler e env'
    | r => r
    end.

(** A call that can fail: the pending condition is raised, or nothing. *)
Definition may_raise : IO unit :=
  fun env =>
    match raises env with
    | Some msg :: rest =>
        (Thrown (mkError msg),
         mkEnv (MESSAGE_SQLITE_FILE env) (paths env) (texts env)
               (executed env) rest (logged env))
    | None :: rest =>
        (Returned tt,
         mkEnv (MESSAGE_SQLITE_FILE env) (paths env) (texts env)
               (executed env) rest (logged env))
    | [] => (Returned tt, env)
    end.

Definition logger (line : string) : IO unit :=
  fun env =>
    (Returned tt,
     mkEnv (MESSAGE_SQLITE_FILE env) (paths env) (texts env) (executed env)
           (raises env) (logged env ++ [line])).

(** [fs.existsSync(path)]: nothing exists under the empty path. *)
Definition existsSync (path : string) : IO bool :=
  fun env =>
    (Returned (negb (bool_decide (path = ""))
               && bool_decide (path ∈ paths env)), env).

(** [fs.mkdirSync(path, { recursive: true })]: the empty path cannot be
    created. *)
Definition mkdirSync (path : string) : IO unit :=
  if bool_decide (path = "")
  then fail (mkError "ENOENT: no such file or directory, mkdir ''")
  else
    may_raise ;>>
    fun env =>
      (Returned tt,
       mkEnv (MESSAGE_SQLITE_FILE env) ({[ path ]} ∪ paths env) (texts env)
             (executed env) (raises env) (logged env)).

(** [fs.readFileSync(path, "utf8")] *)
Definition readFileSync (path : string) : IO string :=
  may_raise ;>>
  fun env =>
    match texts env !! path with
    | Some text => (Returned text, env)
    | None =>
        (Thrown (mkError ("ENOENT: no such file or directory, open '"
                          +:+ path +:+ "'")), env)
    end.

(** [new Database(path)]: the handle is known by the path of its file. *)
Definition new_Database (path : string) : IO string :=
  may_raise ;>>
  fun env =>
    (Returned path,
     mkEnv (MESSAGE_SQLITE_FILE env) ({[ path ]} ∪ paths env) (texts env)
           (executed env) (raises env) (logged env)).

Definition ran (database : string) (env : Env) : list string :=
  default [] (executed env !! database).

(** [database.exec(sql)] *)
Definition exec (database sql : string) : IO unit :=
  may_raise ;>>
  fun env =>
    (Returned tt,
     mkEnv (MESSAGE_SQLITE_FILE env) (paths env) (texts env)
           (<[database := ran database env ++ [sql]]> (executed env))
           (raises env) (logged env)).

(** [database.transaction(body)()]: what the body ran is undone when it
    throws. *)
Definition in_transaction {T} (database : string) (body : IO T) : IO T :=
  fun env =>
    match body env with
    | (Thrown e, env') =>
        (Thrown e,
         mkEnv (MESSAGE_SQLITE_FILE env') (paths env') (texts env')
               (<[database := ran database env]> (executed env'))
               (raises env') (logged env'))
    | r => r
    end.

(** [s.lastIndexOf(c)]: the position of the last [c], or -1. *)
Fixpoint lastIndexOf (s : string) (c : ascii) : Z :=
  match s with
  | EmptyString => -1
  | String a s' =>
      let i := lastIndexOf s' c in
      if 0 <=? i then i + 1 else if Ascii.eqb a c then 0 else -1
  end.

(** [s.substring(0, stop)]: a negative [stop] counts as 0. *)
Definition substring0 (s : string) (stop : Z) : string :=
  String.substring 0 (Z.to_nat (Z.max 0 stop)) s.

Definition dbPath (env : Env) : string :=
  match MESSAGE_SQLITE_FILE env with
  | Some path => if bool_decide (path = "") then "./database/messages.db"
                 else path
  | None => "./database/messages.db"
  end.

Definition initDatabase : IO string :=
  logger "Initializing database..." ;>>
  fun env =>
    let dbPath := dbPath env in
    let dbDir := substring0 dbPath (lastIndexOf dbPath "/") in
    try_catch
      (perform dirExists <- existsSync dbDir ;>
       (if negb dirExists then mkdirSync dbDir else done_ tt) ;>>
       perform fileExists <- existsSync dbPath ;>
       let isNew := negb fileExists in
       perform database <- new_Database dbPath ;>
       exec database "PRAGMA foreign_keys = ON;" ;>>
       exec database "PRAGMA journal_mode = WAL;" ;>>
       (if isNew
        then perform initSQL <- readFileSync "./database/init.sql" ;>
             in_transaction database (exec database initSQL)
        else done_ tt) ;>>
       logger "Database initialized successfully" ;>>
       done_ database)
      (fun error =>
         logger ("Database initialization failed: " +:+ message error) ;>>
         fail (mkError ("Failed to initialize database: "
                        +:+ message error)))
      env.

(** ** The singleton

    A manager is known by the handle it was built with.  [Globals] holds the
    static field of the class and the two variables of the module. *)

Record Manager := mkManager { this_database : string }.

Record Globals := mkGlobals {
  instance : option Manager;                (* [MessageManager.instance] *)
  messageManagerInstance : option Manager;
  databaseInstance : option string
}.

Definition getInstance (database : string) (g : Globals)
  : Manager * Globals :=
  match instance g with
  | None =>
      let m := mkManager database in
      (m, mkGlobals (Some m) (messageManagerInstance g) (databaseInstance g))
  | Some m => (m, g)
  end.

Definition getMessageManager (g : Globals) (env : Env)
  : Outcome Manager * (Globals * Env) :=
  match messageManagerInstance g with
  | Some m => (Returned m, (g, env))
  | None =>
      let opened :=
        match databaseInstance g with
        | Some database => (Returned database, (g, env))
        | None =>
            match initDatabase env with
            | (Returned database, env') =>
                (Returned database,
                 (mkGlobals (instance g) (messageManagerInstance g)
                            (Some database), env'))
            | (Thrown e, env') => (Thrown e, (g, env'))
            end
        end in
      match opened with
      | (Returned database, (g1, env1)) =>
          let '(m, g2) := getInstance database g1 in
          (Returned m,
           (mkGlobals (instance g2) (Some m) (databaseInstance g2), env1))
      | (Thrown e, state) => (Thrown e, state)
      end
  end.

(** ** The exported functions

    Each one awaits the manager of the module and calls the method of the
    same name.  The state of the application is the globals, the environment
    of [initDatabase], and the world of the manager (its counters and the
    table behind its handle). *)

Definition App (T : Type) : Type :=
  Globals * Env * World -> option (Outcome T * (Globals * Env * World)).

Definition with_manager {T} (method : Manager -> Promise T) : App T :=
  fun '(g, env, w) =>
    match getMessageManager g env with
    | (Thrown e, (g1, env1)) => Some (Thrown e, (g1, env1, w))
    | (Returned manager, (g1, env1)) =>
        match method manager w with
        | Some (o, w') => Some (o, (g1, env1, w'))
        | None => None
        end
    end.

Module Exported.
Definition getMessages (fuel : nat) : App (list Row) :=
  with_manager (fun manager => getMessages fuel).
Definition insertMessage (fuel : nat) (messageId : number) (content : list N)
    (createdTimestamp updatedTimestamp : number) : App unit :=
  with_manager
    (fun manager =>
       insertMessage fuel messageId content createdTimestamp updatedTimestamp).
Definition deleteMessage (fuel : nat) (messageId : number) : App unit :=
  with_manager (fun manager => deleteMessage fuel messageId).
Definition getMessage (fuel : nat) (messageId : number)
  : App (option Row) :=
  with_manager (fun manager => getMessage fuel messageId).
Definition updateMessage (fuel : nat) (messageId : number) (content : list N)
  : App unit :=
  with_manager (fun manager => updateMessage fuel messageId content).
Definition getMessageCount (fuel : nat) : App Z :=
  with_manager (fun manager => getMessageCount fuel).
Definition messageExists (fuel : nat) (messageId : number) : App bool :=
  with_manager (fun manager => messageExists fuel messageId).
End Exported.

(** ** Calls that overlap

    An [async] function runs up to its first [await] when it is called, and
    from one [await] to the next each time it is resumed; between two such
    turns the turns of other calls can run.  A [Task] is what is left of a
    call that was issued: it has settled, or it waits for its next turn,
    which changes the world and leaves the rest of the task.  The methods
    above are the special case of a call whose turns run with no turn of
    another call in between. *)

Inductive Task (T : Type) : Type :=
| Settled (o : Outcome T)
| Exhausted
| Suspended (effect : World -> World) (rest : World -> Task T).
Arguments Settled {T} o.
Arguments Exhausted {T}.
Arguments Suspended {T} effect rest.

(** Calling an [async] function: its first turn, and the task it leaves. *)
Definition Call (T : Type) : Type := World -> World * Task T.

(** Synchronous code, then the rest of the function body in the same turn;
    an exception settles the function as rejected. *)
Definition sync {A B} (m : Promise A) (k : A -> Call B) : Call B :=
  fun w =>
    match m w with
    | Some (Returned v, w') => k v w'
    | Some (Thrown e, w') => (w', Settled (Thrown e))
    | None => (w, Exhausted)
    end.

(** An [async] function without [await]. *)
Definition settle {T} (m : Promise T) : Call T :=
  sync m (fun v w => (w, Settled (Returned v))).

(** A function that awaits a task is resumed in a later turn, once the task
    has settled, with its value or its error. *)
Fixpoint resumed {A B} (t : Task A) (k : Outcome A -> Call B) : Task B :=
  match t with
  | Settled o => Suspended (fun w => fst (k o w)) (fun w => snd (k o w))
  | Exhausted => Exhausted
  | Suspended effect rest => Suspended effect (fun w => resumed (rest w) k)
  end.

(** [await c]: the call [c] has its first turn at once. *)
Definition await_ {A B} (c : Call A) (k : Outcome A -> Call B) : Call B :=
  fun w => let '(w1, t) := c w in (w1, resumed t k).

(** The world when a timer set in [w0] fires in [w]. *)
Definition fired (ms : Z) (w0 w : World) : World :=
  set_clock (Z.max (clock w) (clock w0 + ms)) w.

Module Overlapping.

(** What [retry] does when the operation it awaits has settled; [again] is
    the recursive call. *)
Definition retry_resumed {T} (again : Call T) (key : string) (o : Outcome T)
  : Call T :=
  match o with
  | Returned v => fun w => (w, Settled (Returned v))
  | Thrown error =>
      fun w1 =>
        let currentRetries := default 0 (retryCount w1 !! key) in
        if (currentRetries <? MAX_RETRIES) && isRetryableError error then
          let w2 := set_retryCount
                      (<[key := currentRetries + 1]> (retryCount w1)) w1 in
          (w2, Suspended (fun w => fst (again (fired RETRY_DELAY w2 w)))
                         (fun w => snd (again (fired RETRY_DELAY w2 w))))
        else
          (set_retryCount (delete key (retryCount w1)) w1,
           Settled (Thrown error))
  end.

Fixpoint retry {T} (fuel : nat) (operation : Call T) (key : string)
  : Call T :=
  match fuel with
  | O => fun w => (w, Exhausted)
  | S fuel' =>
      await_ operation (retry_resumed (retry fuel' operation key) key)
  end.

(** The arrow function [messageExists] hands to [retry]. *)
Definition exists_body (messageId : number) : Call bool :=
  settle (check (validateMessageId messageId) ;>
          await found <- query (select_one messageId) ;>
          resolve (bool_decide (found <> None))).

Definition messageExists (fuel : nat) (messageId : number) : Call bool :=
  retry fuel (exists_body messageId)
    ("messageExists_" +:+ toString messageId).

(** The body of [insertMessage] after [await this.messageExists(...)]. *)
Definition insert_resumed (messageId : number) (content : list N)
    (createdTimestamp updatedTimestamp : number) (o : Outcome bool)
  : Call unit :=
  match o with
  | Thrown e => fun w => (w, Settled (Thrown e))
  | Returned exists_ =>
      settle
        (if exists_ : bool
         then throw (mkError ("Message with ID " +:+ toString messageId
                              +:+ " already exists"))
         else
           transaction
             (run (insert_into messageId content createdTimestamp
                     updatedTimestamp))
           ;> resolve tt)
  end.

(** The arrow function [insertMessage] hands to [retry]. *)
Definition insert_body (fuel : nat) (messageId : number) (content : list N)
    (createdTimestamp updatedTimestamp : number) : Call unit :=
  sync (check (validateMessageId messageId)) (fun _ =>
  sync (check (validateContent content)) (fun _ =>
  sync (check (validateTimestamps createdTimestamp updatedTimestamp))
    (fun _ =>
  await_ (messageExists fuel messageId)
    (insert_resumed messageId content createdTimestamp updatedTimestamp)))).

Definition insertMessage (fuel : nat) (messageId : number) (content : list N)
    (createdTimestamp updatedTimestamp : number) : Call unit :=
  retry fuel
    (insert_body fuel messageId content createdTimestamp updatedTimestamp)
    ("insertMessage_" +:+ toString messageId).

End Overlapping.





(** * Vocabulary of the statements *)

(** ** Worlds around one attempt of [retry] *)

(** The counter of [key], as [retry] reads it. *)
Definition count (key : string) (w : World) : Z :=
  default 0 (retryCount w !! key).

(** The world in which [retry] throws: the counter of [key] is removed. *)
Definition clear (key : string) (w : World) : World :=
  set_retryCount (delete key (retryCount w)) w.

(** The world in which the next attempt starts after a retryable failure. *)
Definition again (key : string) (w : World) : World :=
  set_clock (clock w + RETRY_DELAY)
    (set_retryCount (<[key := count key w + 1]> (retryCount w)) w).

(** ** Letters of a message *)

Fixpoint occurs (c : ascii) (s : string) : bool :=
  match s with
  | EmptyString => false
  | String a s' => Ascii.eqb c a || occurs c s'
  end.

Definition isDigit (c : ascii) : bool :=
  existsb (Ascii.eqb c)
    ["0"; "1"; "2"; "3"; "4"; "5"; "6"; "7"; "8"; "9"]%char.

(** The errors the manager throws itself: the validation errors, the conflict
    of [insertMessage] and the two "not found" errors. *)
Definition own_errors (messageId : number) : list Error :=
  [ mkError "Invalid message ID: must be a positive integer within safe range";
    mkError "Invalid created_at timestamp: must be a positive integer";
    mkError "Invalid updated_at timestamp: must be a positive integer";
    mkError "updated_at timestamp cannot be earlier than created_at timestamp";
    mkError "Content must be a string";
    mkError "Content cannot be empty";
    mkError ("Content exceeds maximum length limit of "
             +:+ toString (Integer MAX_CONTENT_LENGTH) +:+ " bytes");
    mkError "Message not found";
    mkError ("Message with ID " +:+ toString messageId +:+ " already exists");
    mkError ("Message with ID " +:+ toString messageId +:+ " not found") ].

(** The two errors of the content check. *)
Definition empty_content : Error := mkError "Content cannot be empty".

Definition oversized_content : Error :=
  mkError "Content exceeds maximum length limit of 1000000 bytes".

(** ** Order of the two timestamps of a row *)

Definition ordered (r : Row) : Prop :=
  leb (created_at r) (updated_at r) = true.

(** ** Operations under any engine script

    [triple P m Q E]: from a world in [P], whenever [m] comes back, it
    returns a value and a world in [Q], or throws in a world in [E]. *)

Definition triple {T} (P : World -> Prop) (m : Promise T)
    (Q : T -> World -> Prop) (E : World -> Prop) : Prop :=
  forall w o w', P w -> m w = Some (o, w') ->
    match o with
    | Returned v => Q v w'
    | Thrown _ => E w'
    end.

(** The table holds [rows] and the clock is not before [t]. *)
Definition stable (rows : list Row) (t : Z) (w : World) : Prop :=
  database w = rows /\ t <= clock w.

(** ** Example data *)

Definition hello : list N := code_units "hello".

Definition hello_row : Row :=
  mkRow 1 (Integer 7) hello (Integer 1700000000000) (Integer 1700000000000).

(** ** Tables and counters of the states the manager can reach *)



(** Every stored counter is between 1 and [MAX_RETRIES]. *)
Definition counters_bounded (w : World) : Prop :=
  forall k n, retryCount w !! k = Some n -> 1 <= n <= MAX_RETRIES.

(** One step of the life of a manager: a call of one of its seven
    operations, whatever its outcome, or the world moving on between two
    calls (time passes, engine conditions arise).  The calls of these steps
    do not overlap: each one has settled when the next one is issued. *)
Inductive call : World -> World -> Prop :=
| call_messageExists fuel messageId o w w' :
    messageExists fuel messageId w = Some (o, w') -> call w w'
| call_deleteMessage fuel messageId o w w' :
    deleteMessage fuel messageId w = Some (o, w') -> call w w'
| call_getMessage fuel messageId o w w' :
    getMessage fuel messageId w = Some (o, w') -> call w w'
| call_getMessages fuel o w w' :
    getMessages fuel w = Some (o, w') -> call w w'
| call_insertMessage fuel messageId text createdAt updatedAt o w w' :
    insertMessage fuel messageId text createdAt updatedAt w = Some (o, w') ->
    call w w'
| call_updateMessage fuel messageId text o w w' :
    updateMessage fuel messageId text w = Some (o, w') -> call w w'
| call_getMessageCount fuel o w w' :
    getMessageCount fuel w = Some (o, w') -> call w w'
| call_elsewhere t script w :
    call w (set_pending script (set_clock t w)).

(** A computation that leaves the retry counters as they are. *)
Definition keeps_retryCount {T} (m : Promise T) : Prop :=
  forall w o w', m w = Some (o, w') -> retryCount w' = retryCount w.

(** A property of worlds that only looks at the retry counters. *)
Definition counters_only (P : World -> Prop) : Prop :=
  forall w w', retryCount w' = retryCount w -> P w -> P w'.

(** A property that survives what [retry] does to the counter of [key]. *)
Definition respects (key : string) (P : World -> Prop) : Prop :=
  (forall w, P w -> count key w < MAX_RETRIES -> P (again key w))
  /\ (forall w, P w -> P (clear key w)).

(** From a world in [P], the computation comes back (it returns or throws
    within the recursion budget of the model), in a world in [P]. *)
Definition comes_back {T} (P : World -> Prop) (m : Promise T) : Prop :=
  forall w, P w -> exists o w', m w = Some (o, w') /\ P w'.

(** Two environments that differ at most by the pending conditions and the
    log. *)
Definition same_files (env env1 : Env) : Prop :=
  MESSAGE_SQLITE_FILE env1 = MESSAGE_SQLITE_FILE env
  /\ texts env1 = texts env
  /\ paths env1 = paths env
  /\ executed env1 = executed env.

(** ** Two calls of [insertMessage] in flight *)








(** * Properties *)

(** ** Text: which messages can look transient *)

Lemma occurs_append c s t :
  occurs c (s +:+ t) = occurs c s || occurs c t.
Proof.
  induction s as [|a s IH]; simpl; [reflexivity|].
  rewrite IH. apply orb_assoc.
Qed.

Lemma prefix_occurs c sub :
  forall s, String.prefix sub s = true -> occurs c sub = true ->
            occurs c s = true.
Proof.
  induction sub as [|a sub IH]; intros s Hp Hc; [discriminate|].
  destruct s as [|b s]; [discriminate|]. simpl in Hp, Hc.
  destruct (ascii_dec a b) as [Hab|]; [subst b|discriminate].
  simpl. apply orb_true_iff in Hc as [Hc|Hc].
  - rewrite Hc. reflexivity.
  - rewrite (IH s Hp Hc). apply orb_true_r.
Qed.

Lemma includes_occurs c sub s :
  includes s sub = true -> occurs c sub = true -> occurs c s = true.
Proof.
  intros Hi Hc. induction s as [|a s IH].
  - simpl in Hi. rewrite orb_false_r in Hi. eauto using prefix_occurs.
  - cbn [includes] in Hi. apply orb_true_iff in Hi as [Hp|Hi].
    + eauto using prefix_occurs.
    + simpl. rewrite (IH Hi). apply orb_true_r.
Qed.

(** A text without the letter [c] includes no text that has it. *)
Lemma includes_without c sub s :
  occurs c s = false -> occurs c sub = true -> includes s sub = false.
Proof.
  intros Hs Hc. destruct (includes s sub) eqn:Hi; [|reflexivity].
  rewrite (includes_occurs c sub s Hi Hc) in Hs. discriminate.
Qed.

(** An error is not retryable as soon as its message has neither a "b"
    ("database is locked", "busy") nor a "p" ("no response"). *)
Lemma not_retryable_without_b_p msg :
  occurs "b" msg = false -> occurs "p" msg = false ->
  isRetryableError (mkError msg) = false.
Proof.
  intros Hb Hp. unfold isRetryableError. simpl.
  rewrite (includes_without "b" "database is locked" msg Hb eq_refl).
  rewrite (includes_without "b" "busy" msg Hb eq_refl).
  rewrite (includes_without "p" "no response" msg Hp eq_refl).
  reflexivity.
Qed.

Lemma occurs_uint c d :
  isDigit c = false -> occurs c (NilZero.string_of_uint d) = false.
Proof.
  unfold isDigit. simpl. intros H.
  repeat (apply orb_false_iff in H as [? H]).
  assert (He : occurs c (NilEmpty.string_of_uint d) = false).
  { induction d; simpl; rewrite ?IHd; try reflexivity;
      apply orb_false_iff; split; assumption || reflexivity. }
  destruct d; try exact He.
  simpl. apply orb_false_iff; split; assumption || reflexivity.
Qed.

(** The decimal notation of a positive integer has digits only. *)
Lemma occurs_toString c z :
  0 < z -> isDigit c = false -> occurs c (toString (Integer z)) = false.
Proof.
  intros Hz Hc. destruct z as [|p|p]; try lia.
  apply occurs_uint, Hc.
Qed.

Lemma validateMessageId_None messageId :
  validateMessageId messageId = None <->
  exists z, messageId = Integer z /\ 0 < z <= MAX_SAFE_INTEGER.
Proof.
  unfold validateMessageId. destruct messageId as [z|repr]; simpl.
  - destruct (Z.leb_spec z 0), (Z.ltb_spec MAX_SAFE_INTEGER z); simpl;
      (split; [intros ? | intros (z' & [= <-] & ?)]);
      try discriminate; try lia; try reflexivity.
    exists z. split; [reflexivity|lia].
  - split; [discriminate|]. intros (z & ? & _). discriminate.
Qed.

Lemma already_exists_not_retryable messageId :
  validateMessageId messageId = None ->
  isRetryableError
    (mkError ("Message with ID " +:+ toString messageId +:+ " already exists"))
  = false.
Proof.
  intros (z & -> & Hz & _)%validateMessageId_None.
  apply not_retryable_without_b_p; rewrite !occurs_append;
    rewrite occurs_toString by (lia || reflexivity); reflexivity.
Qed.

Lemma not_found_not_retryable messageId :
  validateMessageId messageId = None ->
  isRetryableError
    (mkError ("Message with ID " +:+ toString messageId +:+ " not found"))
  = false.
Proof.
  intros (z & -> & Hz & _)%validateMessageId_None.
  apply not_retryable_without_b_p; rewrite !occurs_append;
    rewrite occurs_toString by (lia || reflexivity); reflexivity.
Qed.

Lemma own_errors_not_retryable messageId e :
  validateMessageId messageId = None -> In e (own_errors messageId) ->
  isRetryableError e = false.
Proof.
  intros Hid He. unfold own_errors in He.
  destruct He as [<-|[<-|[<-|[<-|[<-|[<-|[<-|[<-|[<-|[<-|[]]]]]]]]]]];
    [vm_compute; reflexivity ..| |].
  - apply already_exists_not_retryable, Hid.
  - apply not_found_not_retryable, Hid.
Qed.

(** ** The retry wrapper, one attempt at a time *)

Section Retry.
Context {T : Type} (operation : Promise T) (key : string).

Lemma retry_returned fuel w v w1 :
  operation w = Some (Returned v, w1) ->
  retry (S fuel) operation key w = Some (Returned v, w1).
Proof. intros H. simpl. rewrite H. reflexivity. Qed.

Lemma retry_fatal fuel w e w1 :
  operation w = Some (Thrown e, w1) ->
  isRetryableError e = false ->
  retry (S fuel) operation key w = Some (Thrown e, clear key w1).
Proof.
  intros H He. simpl. rewrite H, He, andb_false_r. reflexivity.
Qed.

Lemma retry_exhausted fuel w e w1 :
  operation w = Some (Thrown e, w1) ->
  MAX_RETRIES <= count key w1 ->
  retry (S fuel) operation key w = Some (Thrown e, clear key w1).
Proof.
  intros H Hc. simpl. rewrite H. fold (count key w1).
  destruct (Z.ltb_spec (count key w1) MAX_RETRIES); [lia|]. reflexivity.
Qed.

Lemma retry_again fuel w e w1 :
  operation w = Some (Thrown e, w1) ->
  count key w1 < MAX_RETRIES ->
  isRetryableError e = true ->
  retry (S fuel) operation key w = retry fuel operation key (again key w1).
Proof.
  intros H Hc He. simpl. rewrite H, He. fold (count key w1).
  destruct (Z.ltb_spec (count key w1) MAX_RETRIES); [|lia]. reflexivity.
Qed.

Lemma count_again w : count key (again key w) = count key w + 1.
Proof. unfold count, again. simpl. rewrite lookup_insert_eq. reflexivity. Qed.

Lemma count_clear w : retryCount (clear key w) !! key = None.
Proof. unfold clear. simpl. apply lookup_delete_eq. Qed.
End Retry.

(** ** Statements on a table *)

Lemma set_database_same w : set_database (database w) w = w.
Proof. destruct w; reflexivity. Qed.

Lemma select_one_None messageId rows :
  select_one messageId rows = None <->
  Forall (fun r => message_id r <> messageId) rows.
Proof.
  unfold select_one, matches. induction rows as [|r rows IH]; simpl.
  - split; [constructor|reflexivity].
  - case_bool_decide as Hr.
    + split; [discriminate|]. intros H. inversion H; contradiction.
    + rewrite IH. split; [constructor; assumption|].
      intros H. inversion H; assumption.
Qed.

Lemma delete_where_absent messageId rows :
  select_one messageId rows = None ->
  delete_where messageId rows = (0, rows).
Proof.
  rewrite select_one_None. unfold delete_where, matches.
  induction 1 as [|r rows Hr _ IH]; [reflexivity|].
  simpl. rewrite bool_decide_eq_false_2 by assumption. simpl.
  injection IH as IH1 IH2. rewrite IH2. f_equal. exact IH1.
Qed.

Lemma update_where_absent text updatedAt messageId rows :
  select_one messageId rows = None ->
  update_where text updatedAt messageId rows = (0, rows).
Proof.
  rewrite select_one_None. unfold update_where, matches.
  induction 1 as [|r rows Hr _ IH]; [reflexivity|].
  simpl. rewrite bool_decide_eq_false_2 by assumption.
  injection IH as IH1 IH2. rewrite IH2. f_equal. exact IH1.
Qed.

(** ** Running the steps of an operation *)

Lemma andThen_returned {A B} (m : Promise A) (k : A -> Promise B) w v w' :
  m w = Some (Returned v, w') -> andThen m k w = k v w'.
Proof. unfold andThen. intros ->. reflexivity. Qed.

Lemma andThen_thrown {A B} (m : Promise A) (k : A -> Promise B) w e w' :
  m w = Some (Thrown e, w') -> andThen m k w = Some (Thrown e, w').
Proof. unfold andThen. intros ->. reflexivity. Qed.

Lemma check_passes r w : r = None -> check r w = Some (Returned tt, w).
Proof. intros ->. reflexivity. Qed.

Lemma check_throws r e w : r = Some e -> check r w = Some (Thrown e, w).
Proof. intros ->. reflexivity. Qed.

(** With no engine condition pending, a statement just runs. *)
Lemma query_quiet {T} (stmt : list Row -> T) w :
  pending w = [] -> query stmt w = Some (Returned (stmt (database w)), w).
Proof. unfold query, andThen, consult. intros ->. reflexivity. Qed.

Lemma run_quiet stmt w :
  pending w = [] ->
  run stmt w = Some (Returned (fst (stmt (database w))),
                     set_database (snd (stmt (database w))) w).
Proof.
  unfold run, andThen, consult. intros ->.
  destruct (stmt (database w)). reflexivity.
Qed.

Lemma transaction_returned {T} (body : Promise T) w v w' :
  body w = Some (Returned v, w') -> transaction body w = Some (Returned v, w').
Proof. unfold transaction. intros ->. reflexivity. Qed.

Lemma transaction_thrown {T} (body : Promise T) w e w' :
  body w = Some (Thrown e, w') ->
  transaction body w = Some (Thrown e, set_database (database w) w').
Proof. unfold transaction. intros ->. reflexivity. Qed.

Lemma updateMessage_not_found fuel messageId text w :
  validateMessageId messageId = None ->
  validateContent text = None ->
  select_one messageId (database w) = None ->
  pending w = [] ->
  updateMessage (S fuel) messageId text w
  = Some (Thrown (mkError ("Message with ID " +:+ toString messageId
                           +:+ " not found")),
          clear ("updateMessage_" +:+ toString messageId) w).
Proof.
  intros Hid Htext Habsent Hquiet. unfold updateMessage.
  apply retry_fatal; [|apply not_found_not_retryable, Hid].
  rewrite (andThen_returned _ _ w tt w) by (apply check_passes, Hid).
  rewrite (andThen_returned _ _ w tt w) by (apply check_passes, Htext).
  rewrite (andThen_returned _ _ w (Integer (clock w)) w) by reflexivity.
  rewrite (andThen_returned _ _ w 0 w).
  - reflexivity.
  - apply transaction_returned. rewrite run_quiet by assumption.
    rewrite update_where_absent by assumption. simpl.
    rewrite set_database_same. reflexivity.
Qed.

Lemma deleteMessage_not_found fuel messageId w :
  validateMessageId messageId = None ->
  select_one messageId (database w) = None ->
  pending w = [] ->
  deleteMessage (S fuel) messageId w
  = Some (Thrown (mkError "Message not found"),
          clear ("deleteMessage_" +:+ toString messageId) w).
Proof.
  intros Hid Habsent Hquiet. unfold deleteMessage.
  apply retry_fatal; [|reflexivity].
  rewrite (andThen_returned _ _ w tt w) by (apply check_passes, Hid).
  rewrite (andThen_returned _ _ w 0 w).
  - reflexivity.
  - apply transaction_returned. rewrite run_quiet by assumption.
    rewrite delete_where_absent by assumption. simpl.
    rewrite set_database_same. reflexivity.
Qed.

Lemma messageExists_quiet fuel messageId w :
  validateMessageId messageId = None ->
  pending w = [] ->
  messageExists (S fuel) messageId w
  = Some (Returned (bool_decide (select_one messageId (database w) <> None)),
          w).
Proof.
  intros Hid Hquiet. unfold messageExists. apply retry_returned.
  rewrite (andThen_returned _ _ w tt w) by (apply check_passes, Hid).
  rewrite (andThen_returned _ _ w _ w) by (apply query_quiet, Hquiet).
  reflexivity.
Qed.

Lemma getMessage_quiet fuel messageId w :
  validateMessageId messageId = None ->
  pending w = [] ->
  getMessage (S fuel) messageId w
  = Some (Returned (select_one messageId (database w)), w).
Proof.
  intros Hid Hquiet. unfold getMessage. apply retry_returned.
  rewrite (andThen_returned _ _ w tt w) by (apply check_passes, Hid).
  apply query_quiet, Hquiet.
Qed.

Lemma insertMessage_conflict fuel messageId text createdAt updatedAt w :
  validateMessageId messageId = None ->
  validateContent text = None ->
  validateTimestamps createdAt updatedAt = None ->
  select_one messageId (database w) <> None ->
  pending w = [] ->
  insertMessage (S fuel) messageId text createdAt updatedAt w
  = Some (Thrown (mkError ("Message with ID " +:+ toString messageId
                           +:+ " already exists")),
          clear ("insertMessage_" +:+ toString messageId) w).
Proof.
  intros Hid Htext Htime Hpresent Hquiet. unfold insertMessage.
  apply retry_fatal; [|apply already_exists_not_retryable, Hid].
  rewrite (andThen_returned _ _ w tt w) by (apply check_passes, Hid).
  rewrite (andThen_returned _ _ w tt w) by (apply check_passes, Htext).
  rewrite (andThen_returned _ _ w tt w) by (apply check_passes, Htime).
  rewrite (andThen_returned _ _ w true w).
  - reflexivity.
  - rewrite messageExists_quiet by assumption.
    rewrite bool_decide_eq_true_2 by assumption. reflexivity.
Qed.




(** A rejected argument: the operation stops at the check, before any
    statement. *)
Lemma insertMessage_rejects_content fuel messageId text createdAt updatedAt
    e w :
  validateMessageId messageId = None ->
  validateContent text = Some e ->
  isRetryableError e = false ->
  insertMessage (S fuel) messageId text createdAt updatedAt w
  = Some (Thrown e, clear ("insertMessage_" +:+ toString messageId) w).
Proof.
  intros Hid Htext He. unfold insertMessage. apply retry_fatal; [|exact He].
  rewrite (andThen_returned _ _ w tt w) by (apply check_passes, Hid).
  apply andThen_thrown, check_throws, Htext.
Qed.

Lemma updateMessage_rejects_content fuel messageId text e w :
  validateMessageId messageId = None ->
  validateContent text = Some e ->
  isRetryableError e = false ->
  updateMessage (S fuel) messageId text w
  = Some (Thrown e, clear ("updateMessage_" +:+ toString messageId) w).
Proof.
  intros Hid Htext He. unfold updateMessage. apply retry_fatal; [|exact He].
  rewrite (andThen_returned _ _ w tt w) by (apply check_passes, Hid).
  apply andThen_thrown, check_throws, Htext.
Qed.

(** ** Rules for operations under any engine script *)

Section Triples.
Context {T : Type}.
Implicit Types (P E : World -> Prop) (Q : T -> World -> Prop).

Lemma triple_weaken P (m : Promise T) Q Q' E E' :
  triple P m Q E ->
  (forall v w, Q v w -> Q' v w) -> (forall w, E w -> E' w) ->
  triple P m Q' E'.
Proof.
  intros Hm HQ HE w o w' HP Hrun. specialize (Hm w o w' HP Hrun).
  destruct o; auto.
Qed.

Lemma triple_andThen {A} P (m : Promise A) (k : A -> Promise T) R Q E :
  triple P m R E -> (forall v, triple (R v) (k v) Q E) ->
  triple P (andThen m k) Q E.
Proof.
  intros Hm Hk w o w' HP Hrun. unfold andThen in Hrun.
  destruct (m w) as [[[v|e] w1]|] eqn:Hmw; [| |discriminate].
  - exact (Hk v w1 o w' (Hm w _ w1 HP Hmw) Hrun).
  - injection Hrun as <- <-. exact (Hm w _ w1 HP Hmw).
Qed.

Lemma triple_check P r (k : Promise T) Q E :
  (r = None -> triple P k Q E) ->
  (forall w, P w -> E w) ->
  triple P (check r ;> k) Q E.
Proof.
  intros Hk HE w o w' HP Hrun. destruct r as [e|]; simpl in Hrun.
  - injection Hrun as <- <-. auto.
  - exact (Hk eq_refl w o w' HP Hrun).
Qed.

Lemma triple_resolve P (v : T) Q E :
  (forall w, P w -> Q v w) -> triple P (resolve v) Q E.
Proof. intros H w o w' HP [= <- <-]. auto. Qed.

Lemma triple_throw P e Q E :
  (forall w, P w -> E w) -> triple P (@throw T e) Q E.
Proof. intros H w o w' HP [= <- <-]. auto. Qed.

Lemma triple_query rows t (stmt : list Row -> T) :
  triple (stable rows t) (query stmt)
    (fun v w => v = stmt rows /\ stable rows t w) (stable rows t).
Proof.
  intros w o w' [Hrows Ht] Hrun. unfold query, andThen, consult in Hrun.
  destruct (pending w) as [|[msg|] rest]; injection Hrun as <- <-;
    simpl; rewrite ?Hrows; repeat split; assumption.
Qed.

(** A transaction that throws leaves the table as it was. *)
Lemma triple_transaction rows t (body : Promise T) Q :
  triple (stable rows t) body Q (fun w => t <= clock w) ->
  triple (stable rows t) (transaction body) Q (stable rows t).
Proof.
  intros Hb w o w' HP Hrun. unfold transaction in Hrun.
  destruct (body w) as [[[v|e] w1]|] eqn:Hbw; [| |discriminate];
    injection Hrun as <- <-; specialize (Hb w _ w1 HP Hbw); simpl in Hb.
  - exact Hb.
  - split; [apply HP|exact Hb].
Qed.

(** Retrying only touches the counters and lets time pass. *)
Lemma triple_retry P (operation : Promise T) key Q E E' fuel :
  triple P operation Q E ->
  (forall w, E w -> P (again key w)) ->
  (forall w, E w -> E' (clear key w)) ->
  triple P (retry fuel operation key) Q E'.
Proof.
  intros Hop Hagain Hclear. induction fuel as [|fuel IH];
    intros w o w' HP Hrun; [discriminate|].
  simpl in Hrun.
  destruct (operation w) as [[[v|e] w1]|] eqn:Hw; [| |discriminate].
  - injection Hrun as <- <-. exact (Hop w _ w1 HP Hw).
  - pose proof (Hop w _ w1 HP Hw) as HE. simpl in HE.
    destruct (_ && _).
    + exact (IH _ o w' (Hagain w1 HE) Hrun).
    + injection Hrun as <- <-. exact (Hclear w1 HE).
Qed.
End Triples.

Lemma triple_run rows t stmt :
  triple (stable rows t) (run stmt)
    (fun v w => v = fst (stmt rows) /\ stable (snd (stmt rows)) t w)
    (stable rows t).
Proof.
  intros w o w' [Hrows Ht] Hrun. unfold run, andThen, consult in Hrun.
  destruct (pending w) as [|[msg|] rest]; simpl in Hrun;
    rewrite ?Hrows in Hrun; try destruct (stmt rows) as [changes rows'];
    injection Hrun as <- <-; simpl; repeat split; assumption.
Qed.

Lemma triple_Date_now rows t :
  triple (stable rows t) Date_now
    (fun v w => (exists c, v = Integer c /\ t <= c) /\ stable rows t w)
    (stable rows t).
Proof.
  intros w o w' HP [= <- <-]. split; [|exact HP].
  exists (clock w). split; [reflexivity|apply HP].
Qed.

Lemma stable_again rows t key w :
  stable rows t w -> stable rows t (again key w).
Proof.
  unfold stable, again, RETRY_DELAY. simpl. intros [? ?].
  split; [assumption|lia].
Qed.

Lemma stable_clear rows t key w :
  stable rows t w -> stable rows t (clear key w).
Proof. unfold stable, clear. simpl. tauto. Qed.

(** ** What each operation does to the table, whatever the engine raises *)

Lemma triple_pure {T} (fact : Prop) P (m : Promise T) Q E :
  (fact -> triple P m Q E) -> triple (fun w => fact /\ P w) m Q E.
Proof. intros H w o w' [Hf HP]. exact (H Hf w o w' HP). Qed.

Ltac retry_stable rows t :=
  apply triple_retry with (E := stable rows t);
  [ | intros ? ?; apply stable_again; assumption
    | intros ? ?; apply stable_clear; assumption ].

Lemma messageExists_triple fuel messageId rows t :
  triple (stable rows t) (messageExists fuel messageId)
    (fun found w =>
       found = bool_decide (select_one messageId rows <> None)
       /\ stable rows t w)
    (stable rows t).
Proof.
  unfold messageExists. retry_stable rows t.
  apply triple_check; [intros Hid|auto].
  eapply triple_andThen; [apply triple_query|]. intros found.
  apply triple_pure. intros ->. apply triple_resolve. auto.
Qed.

Lemma getMessage_triple fuel messageId rows t :
  triple (stable rows t) (getMessage fuel messageId)
    (fun found w => found = select_one messageId rows /\ stable rows t w)
    (stable rows t).
Proof.
  unfold getMessage. retry_stable rows t.
  apply triple_check; [intros Hid|auto]. apply triple_query.
Qed.

Lemma insertMessage_triple fuel messageId text createdAt updatedAt rows t :
  triple (stable rows t)
    (insertMessage fuel messageId text createdAt updatedAt)
    (fun _ w =>
       validateMessageId messageId = None
       /\ validateContent text = None
       /\ validateTimestamps createdAt updatedAt = None
       /\ select_one messageId rows = None
       /\ stable (rows ++ [mkRow (next_rowid rows) messageId
                                 (toWellFormed text) createdAt updatedAt])
            t w)
    (stable rows t).
Proof.
  unfold insertMessage. retry_stable rows t.
  apply triple_check; [intros Hid|auto].
  apply triple_check; [intros Htext|auto].
  apply triple_check; [intros Htime|auto].
  eapply triple_andThen; [apply messageExists_triple|].
  intros found. apply triple_pure. intros ->.
  case_bool_decide as Hfound.
  - apply triple_throw. auto.
  - rename Hfound into Habsent. eapply triple_andThen.
    + apply triple_transaction.
      eapply triple_weaken; [apply triple_run| |unfold stable; tauto].
      intros v w Hw. exact (proj2 Hw).
    + intros ?. apply triple_resolve. simpl. auto 10.
Qed.

Lemma no_changes_absent messageId rows :
  Z.of_nat (length (List.filter (matches messageId) rows)) = 0 ->
  select_one messageId rows = None.
Proof.
  unfold select_one. induction rows as [|r rows IH]; simpl; [reflexivity|].
  destruct (matches messageId r); simpl; [lia|exact IH].
Qed.

Lemma deleteMessage_triple fuel messageId rows t :
  triple (stable rows t) (deleteMessage fuel messageId)
    (fun _ w =>
       validateMessageId messageId = None
       /\ select_one messageId rows <> None
       /\ stable (snd (delete_where messageId rows)) t w)
    (stable rows t).
Proof.
  unfold deleteMessage. retry_stable rows t.
  apply triple_check; [intros Hid|auto].
  apply triple_andThen with
    (R := fun changes w =>
            changes = fst (delete_where messageId rows)
            /\ stable (snd (delete_where messageId rows)) t w).
  - apply triple_transaction.
    eapply triple_weaken; [apply triple_run|auto|unfold stable; tauto].
  - intros changes. apply triple_pure. intros ->.
    destruct (Z.eqb_spec (fst (delete_where messageId rows)) 0) as [H0|H0].
    + apply triple_throw. intros w Hw. apply no_changes_absent in H0.
      rewrite delete_where_absent in Hw by assumption. exact Hw.
    + apply triple_resolve. intros w Hw. repeat split; try apply Hw; auto.
      intros Habsent. rewrite delete_where_absent in H0 by assumption.
      apply H0. reflexivity.
Qed.

Lemma updateMessage_triple fuel messageId text rows t :
  triple (stable rows t) (updateMessage fuel messageId text)
    (fun _ w =>
       validateMessageId messageId = None
       /\ validateContent text = None
       /\ select_one messageId rows <> None
       /\ exists now, t <= now /\
            stable (snd (update_where text (Integer now) messageId rows)) t w)
    (stable rows t).
Proof.
  unfold updateMessage. retry_stable rows t.
  apply triple_check; [intros Hid|auto].
  apply triple_check; [intros Htext|auto].
  eapply triple_andThen; [apply triple_Date_now|].
  intros now. apply triple_pure. intros (c & -> & Hc).
  apply triple_andThen with
    (R := fun changes w =>
            changes = fst (update_where text (Integer c) messageId rows)
            /\ stable (snd (update_where text (Integer c) messageId rows))
                 t w).
  - apply triple_transaction.
    eapply triple_weaken; [apply triple_run|auto|unfold stable; tauto].
  - intros changes. apply triple_pure. intros ->.
    destruct (Z.eqb_spec
                (fst (update_where text (Integer c) messageId rows)) 0)
      as [H0|H0].
    + apply triple_throw. intros w Hw. apply no_changes_absent in H0.
      rewrite update_where_absent in Hw by assumption. exact Hw.
    + apply triple_resolve. intros w Hw. repeat split; auto.
      * intros Habsent. rewrite update_where_absent in H0 by assumption.
        apply H0. reflexivity.
      * exists c. auto.
Qed.

Lemma select_one_app_new messageId rows r :
  select_one messageId rows = None -> message_id r = messageId ->
  select_one messageId (rows ++ [r]) = Some r.
Proof.
  unfold select_one. intros Habsent Hr.
  induction rows as [|r0 rows IH]; simpl in *.
  - unfold matches. rewrite bool_decide_eq_true_2 by assumption. reflexivity.
  - destruct (matches messageId r0); [discriminate|]. exact (IH Habsent).
Qed.

(** ** Content validation *)

Lemma validateContent_None text :
  validateContent text = None <->
  trim text <> [] /\ byteLength text <= MAX_CONTENT_LENGTH.
Proof.
  unfold validateContent.
  destruct (trim text) as [|u rest]; simpl.
  - split; [discriminate|]. intros [H _]. contradiction.
  - destruct (Z.gtb_spec (byteLength text) MAX_CONTENT_LENGTH) as [Hgt|Hle].
    + split; [discriminate|]. intros [_ Hle]. lia.
    + split; [|reflexivity]. intros _. split; [discriminate|lia].
Qed.

Lemma trimStart_nil s : trimStart s = [] <-> Forall (fun u => isWhiteSpace u = true) s.
Proof.
  induction s as [|u s IH]; simpl.
  - split; [constructor|reflexivity].
  - destruct (isWhiteSpace u) eqn:Hu.
    + rewrite IH. split; [constructor; assumption|].
      intros H. inversion H; assumption.
    + split; [discriminate|]. intros H. inversion H; congruence.
Qed.

Lemma trim_nil s : trim s = [] <-> Forall (fun u => isWhiteSpace u = true) s.
Proof.
  unfold trim, trimEnd. split.
  - intros H. apply (f_equal (@rev N)) in H. rewrite rev_involutive in H.
    simpl in H. apply trimStart_nil in H.
    apply Forall_rev in H. rewrite rev_involutive in H.
    destruct (trimStart s) as [|u rest] eqn:Hs; [apply trimStart_nil, Hs|].
    exfalso. inversion H as [|? ? Hu _]; subst.
    clear H. induction s as [|v s IH]; simpl in Hs; [discriminate|].
    destruct (isWhiteSpace v) eqn:Hv; [exact (IH Hs)|].
    injection Hs as -> _. congruence.
  - intros H. apply trimStart_nil in H. rewrite H. reflexivity.
Qed.

(** The text a column holds for a string *)

Lemma surrogate_not_space u :
  isHighSurrogate u || isLowSurrogate u = true -> isWhiteSpace u = false.
Proof.
  unfold isHighSurrogate, isLowSurrogate, isWhiteSpace. intros H.
  assert (Hu : (55296 <= u <= 57343)%N).
  { apply orb_true_iff in H as [H|H]; apply andb_true_iff in H as [H1 H2];
      apply N.leb_le in H1, H2; lia. }
  repeat match goal with
         | |- context [N.leb ?a ?b] => destruct (N.leb_spec a b)
         | |- context [N.eqb ?a ?b] => destruct (N.eqb_spec a b)
         end; simpl; try reflexivity; lia.
Qed.


Lemma high_not_low u : isHighSurrogate u = true -> isLowSurrogate u = false.
Proof.
  unfold isHighSurrogate, isLowSurrogate. intros H.
  apply andb_true_iff in H as [H1 H2]. apply N.leb_le in H1, H2.
  apply andb_false_iff. left. apply N.leb_gt. lia.
Qed.

(** Induction on content strings that follows the way UTF-16 is read: one
    code unit at a time, or a surrogate pair at a time. *)
Lemma units_ind (P : list N -> Prop) :
  P [] ->
  (forall u s, P s -> (forall l s', s = l :: s' -> P s') -> P (u :: s)) ->
  forall s, P s.
Proof.
  intros Hnil Hcons s.
  assert (H : P s /\ forall l s', s = l :: s' -> P s').
  { induction s as [|u s [IH1 IH2]].
    - split; [exact Hnil|discriminate].
    - split; [apply Hcons; assumption|]. intros l s' [= <- <-]. exact IH1. }
  exact (proj1 H).
Qed.

Lemma map_isWhiteSpace_toWellFormed s :
  map isWhiteSpace (toWellFormed s) = map isWhiteSpace s.
Proof.
  induction s as [|u s IH IH'] using units_ind; [reflexivity|].
  cbn [toWellFormed].
  destruct (isHighSurrogate u) eqn:Hh.
  - pose proof (surrogate_not_space u) as Hu. rewrite Hh in Hu.
    specialize (Hu eq_refl).
    destruct s as [|l s']; [simpl; rewrite Hu; reflexivity|].
    destruct (isLowSurrogate l) eqn:Hl.
    + cbn [map]. rewrite (IH' l s' eq_refl). reflexivity.
    + cbn [map]. rewrite IH, Hu. reflexivity.
  - destruct (isLowSurrogate u) eqn:Hl.
    + pose proof (surrogate_not_space u) as Hu. rewrite Hh, Hl in Hu.
      specialize (Hu eq_refl). cbn [map]. rewrite IH, Hu. reflexivity.
    + cbn [map]. rewrite IH. reflexivity.
Qed.

Lemma length_toWellFormed s : length (toWellFormed s) = length s.
Proof.
  rewrite <- (length_map isWhiteSpace), map_isWhiteSpace_toWellFormed.
  apply length_map.
Qed.






Lemma validateContent_empty text :
  length (trim text) = 0%nat -> validateContent text = Some empty_content.
Proof. unfold validateContent. intros ->. reflexivity. Qed.

Lemma validateContent_oversized text :
  length (trim text) <> 0%nat -> MAX_CONTENT_LENGTH < byteLength text ->
  validateContent text = Some oversized_content.
Proof.
  unfold validateContent. intros Hne Hbig.
  destruct (Nat.eqb_spec (length (trim text)) 0); [contradiction|].
  destruct (Z.gtb_spec (byteLength text) MAX_CONTENT_LENGTH); [|lia].
  reflexivity.
Qed.

Lemma validateMessageId_Some messageId e :
  validateMessageId messageId = Some e -> isRetryableError e = false.
Proof.
  unfold validateMessageId. destruct (_ || _); [|discriminate].
  intros [= <-]. reflexivity.
Qed.

(** A run of [n] letters "a", as long a content as one wishes. *)
Lemma byteLength_letters n rest :
  byteLength (repeat 97%N n ++ rest) = Z.of_nat n + byteLength rest.
Proof.
  induction n as [|n IH]; [reflexivity|].
  change (repeat 97%N (S n) ++ rest) with (97%N :: (repeat 97%N n ++ rest)).
  change (byteLength (97%N :: (repeat 97%N n ++ rest)))
    with (1 + byteLength (repeat 97%N n ++ rest)).
  rewrite IH. lia.
Qed.

Lemma rev_letters n : rev (repeat 97%N n) = repeat 97%N n.
Proof.
  induction n as [|n IH]; [reflexivity|].
  simpl. rewrite IH. symmetry. apply repeat_cons.
Qed.

Lemma trim_letters_padded n :
  trim (repeat 97%N (S n) ++ [32; 32]%N) = repeat 97%N (S n).
Proof.
  unfold trim, trimEnd.
  change (trimStart (repeat 97%N (S n) ++ [32; 32]%N))
    with (repeat 97%N (S n) ++ [32; 32]%N).
  rewrite rev_app_distr, rev_letters.
  change (trimStart (rev [32; 32]%N ++ repeat 97%N (S n)))
    with (repeat 97%N (S n)).
  apply rev_letters.
Qed.

Lemma byteLength_letters_only n : byteLength (repeat 97%N n) = Z.of_nat n.
Proof.
  pose proof (byteLength_letters n []) as H. rewrite app_nil_r in H.
  rewrite H. simpl. lia.
Qed.

Lemma padded_letters_over_limit n :
  Z.of_nat n = MAX_CONTENT_LENGTH - 2 ->
  byteLength (trim (repeat 97%N (S n) ++ [32; 32]%N)) <= MAX_CONTENT_LENGTH
  /\ validateContent (repeat 97%N (S n) ++ [32; 32]%N)
     = Some oversized_content.
Proof.
  intros Hn. split.
  - rewrite trim_letters_padded, byteLength_letters_only. lia.
  - apply validateContent_oversized.
    + rewrite trim_letters_padded. discriminate.
    + rewrite byteLength_letters. simpl byteLength. lia.
Qed.

(** The limit applies to the string as given: 999,999 letters followed by two
    spaces are a megabyte and one byte, and are refused, although the trimmed
    string would fit. *)
Example padded_content_over_limit :
  let text := repeat 97%N (S (Z.to_nat 999998)) ++ [32; 32]%N in
  byteLength (trim text) <= MAX_CONTENT_LENGTH
  /\ validateContent text = Some oversized_content.
Proof.
  exact (padded_letters_over_limit (Z.to_nat 999998)
           (Z2Nat.id 999998 (proj1 (Z.leb_le 0 999998) eq_refl))).
Qed.

(** ** Rows after an update *)


(** ** The retry budget of a key

    What the wrapper does for an operation that leaves the counters alone,
    attempt after attempt. *)

Section Budget.
Context {T : Type} (operation : Promise T) (key : string).
Hypothesis keeps_counters :
  forall w o w', operation w = Some (o, w') -> retryCount w' = retryCount w.

Lemma count_after w o w' :
  operation w = Some (o, w') -> count key w' = count key w.
Proof.
  intros H. unfold count. rewrite (keeps_counters _ _ _ H). reflexivity.
Qed.

(** From an absent counter: two retryable failures, then a result. *)
Lemma third_attempt_returns fuel w0 e1 w1 e2 w2 v w3 :
  retryCount w0 !! key = None ->
  operation w0 = Some (Thrown e1, w1) -> isRetryableError e1 = true ->
  operation (again key w1) = Some (Thrown e2, w2) ->
  isRetryableError e2 = true ->
  operation (again key w2) = Some (Returned v, w3) ->
  retry (S (S (S fuel))) operation key w0 = Some (Returned v, w3)
  /\ retryCount w3 !! key = Some 2.
Proof.
  intros Hfresh H1 He1 H2 He2 H3.
  assert (Hc1 : count key w1 = 0).
  { rewrite (count_after _ _ _ H1). unfold count. rewrite Hfresh.
    reflexivity. }
  assert (Hc2 : count key w2 = 1).
  { rewrite (count_after _ _ _ H2), count_again, Hc1. reflexivity. }
  split.
  - rewrite (retry_again _ _ _ _ _ _ H1) by (rewrite ?Hc1; done).
    rewrite (retry_again _ _ _ _ _ _ H2) by (rewrite ?Hc2; done).
    apply retry_returned, H3.
  - rewrite (keeps_counters _ _ _ H3). unfold again. simpl.
    rewrite lookup_insert_eq, Hc2. reflexivity.
Qed.

(** From an absent counter: the fourth retryable failure in a row is
    thrown to the caller, and the counter is removed. *)
Lemma fourth_failure_thrown fuel w0 e1 w1 e2 w2 e3 w3 e4 w4 :
  retryCount w0 !! key = None ->
  operation w0 = Some (Thrown e1, w1) -> isRetryableError e1 = true ->
  operation (again key w1) = Some (Thrown e2, w2) ->
  isRetryableError e2 = true ->
  operation (again key w2) = Some (Thrown e3, w3) ->
  isRetryableError e3 = true ->
  operation (again key w3) = Some (Thrown e4, w4) ->
  retry (S (S (S (S fuel)))) operation key w0
  = Some (Thrown e4, clear key w4).
Proof.
  intros Hfresh H1 He1 H2 He2 H3 He3 H4.
  assert (Hc1 : count key w1 = 0).
  { rewrite (count_after _ _ _ H1). unfold count. rewrite Hfresh.
    reflexivity. }
  assert (Hc2 : count key w2 = 1).
  { rewrite (count_after _ _ _ H2), count_again, Hc1. reflexivity. }
  assert (Hc3 : count key w3 = 2).
  { rewrite (count_after _ _ _ H3), count_again, Hc2. reflexivity. }
  assert (Hc4 : count key w4 = 3).
  { rewrite (count_after _ _ _ H4), count_again, Hc3. reflexivity. }
  rewrite (retry_again _ _ _ _ _ _ H1) by (rewrite ?Hc1; done).
  rewrite (retry_again _ _ _ _ _ _ H2) by (rewrite ?Hc2; done).
  rewrite (retry_again _ _ _ _ _ _ H3) by (rewrite ?Hc3; done).
  apply (retry_exhausted _ _ _ _ _ _ H4). rewrite Hc4. done.
Qed.

(** With a counter left at 2, the second retryable failure is already
    thrown: the third attempt does not take place. *)
Lemma stale_counter_second_failure_thrown fuel w0 e1 w1 e2 w2 :
  retryCount w0 !! key = Some 2 ->
  operation w0 = Some (Thrown e1, w1) -> isRetryableError e1 = true ->
  operation (again key w1) = Some (Thrown e2, w2) ->
  retry (S (S fuel)) operation key w0 = Some (Thrown e2, clear key w2).
Proof.
  intros Hstale H1 He1 H2.
  assert (Hc1 : count key w1 = 2).
  { rewrite (count_after _ _ _ H1). unfold count. rewrite Hstale.
    reflexivity. }
  assert (Hc2 : count key w2 = 3).
  { rewrite (count_after _ _ _ H2), count_again, Hc1. reflexivity. }
  rewrite (retry_again _ _ _ _ _ _ H1) by (rewrite ?Hc1; done).
  apply (retry_exhausted _ _ _ _ _ _ H2). rewrite Hc2. done.
Qed.
End Budget.

(** ** Order of the two timestamps of a row *)

Lemma validateTimestamps_None createdAt updatedAt :
  validateTimestamps createdAt updatedAt = None ->
  leb createdAt updatedAt = true.
Proof.
  unfold validateTimestamps.
  destruct createdAt as [c|], updatedAt as [u|]; simpl;
    try discriminate; try (destruct (c <=? 0); discriminate).
  destruct (c <=? 0); [discriminate|].
  destruct (u <=? 0); [discriminate|].
  destruct (Z.ltb_spec u c); [discriminate|].
  intros _. apply Z.leb_le. assumption.
Qed.

(** [insertMessage] and [deleteMessage] keep every row ordered. *)
Lemma insertMessage_keeps_order fuel messageId text createdAt updatedAt w o w' :
  Forall ordered (database w) ->
  insertMessage fuel messageId text createdAt updatedAt w = Some (o, w') ->
  Forall ordered (database w').
Proof.
  intros Hord Hrun.
  pose proof (insertMessage_triple fuel messageId text createdAt updatedAt
                (database w) (clock w) w o w'
                (conj eq_refl (Z.le_refl _)) Hrun) as H.
  destruct o as [v|e]; cbv beta iota in H.
  - destruct H as (_ & _ & Htime & _ & Hrows & _). rewrite Hrows.
    apply Forall_app. split; [assumption|].
    constructor; [|constructor].
    exact (validateTimestamps_None _ _ Htime).
  - destruct H as [Hrows _]. rewrite Hrows. assumption.
Qed.

Lemma deleteMessage_keeps_order fuel messageId w o w' :
  Forall ordered (database w) ->
  deleteMessage fuel messageId w = Some (o, w') ->
  Forall ordered (database w').
Proof.
  intros Hord Hrun.
  pose proof (deleteMessage_triple fuel messageId
                (database w) (clock w) w o w'
                (conj eq_refl (Z.le_refl _)) Hrun) as H.
  destruct o as [v|e]; cbv beta iota in H.
  - destruct H as (_ & _ & Hrows & _). rewrite Hrows. simpl.
    clear -Hord. induction Hord as [|r rows Hr _ IH]; simpl; [constructor|].
    destruct (negb (matches messageId r)); [constructor|]; assumption.
  - destruct H as [Hrows _]. rewrite Hrows. assumption.
Qed.

(** [updateMessage] keeps the rows ordered when no stored [created_at] is
    after the clock of the call; nothing in the operation checks that. *)
Lemma updateMessage_keeps_order fuel messageId text w o w' :
  Forall ordered (database w) ->
  Forall (fun r => leb (created_at r) (Integer (clock w)) = true)
    (database w) ->
  updateMessage fuel messageId text w = Some (o, w') ->
  Forall ordered (database w').
Proof.
  intros Hord Hpast Hrun.
  pose proof (updateMessage_triple fuel messageId text
                (database w) (clock w) w o w'
                (conj eq_refl (Z.le_refl _)) Hrun) as H.
  destruct o as [v|e]; cbv beta iota in H.
  - destruct H as (_ & _ & _ & now & Hnow & Hrows & _). rewrite Hrows. simpl.
    clear -Hord Hpast Hnow. revert Hpast.
    induction Hord as [|r rows Hr _ IH]; intros Hpast; simpl; [constructor|].
    inversion Hpast as [|? ? Hr' Hrest]; subst.
    constructor; [|exact (IH Hrest)].
    destruct (matches messageId r); [|assumption].
    unfold ordered. simpl. destruct (created_at r) as [c|]; [|discriminate].
    simpl in *. apply Z.leb_le. apply Z.leb_le in Hr'. lia.
  - destruct H as [Hrows _]. rewrite Hrows. assumption.
Qed.

(** A successful [updateMessage] rewrites the content and [updated_at] of the
    rows with the identifier, with the text of the argument and a clock value
    read during the call, and nothing else. *)
Lemma updateMessage_frame fuel messageId text w w' :
  updateMessage fuel messageId text w = Some (Returned tt, w') ->
  exists now,
    clock w <= now
    /\ database w'
       = map (fun r => if matches messageId r
                       then mkRow (rowid r) (message_id r)
                                  (toWellFormed text) (created_at r)
                                  (Integer now)
                       else r) (database w).
Proof.
  intros Hrun.
  pose proof (updateMessage_triple fuel messageId text
                (database w) (clock w) w _ w'
                (conj eq_refl (Z.le_refl _)) Hrun) as H.
  cbv beta iota in H. destruct H as (_ & _ & _ & now & Hnow & Hrows & _).
  exists now. split; [assumption|]. rewrite Hrows. reflexivity.
Qed.

(** * The claims of the specification *)

(** ** Error handling of the retry wrapper *)

(** C4: an error that is not retryable -- in particular any error the
    manager throws itself (validation, duplicate insert, not found) -- is
    thrown again at its first occurrence: the operation is not run a second
    time, no delay passes, and the counter of the key is removed. *)
Theorem fatal_error_rethrown_at_once {T} (operation : Promise T) key fuel
    messageId w e w1 :
  operation w = Some (Thrown e, w1) ->
  isRetryableError e = false
  \/ (validateMessageId messageId = None /\ In e (own_errors messageId)) ->
  retry (S fuel) operation key w
  = Some (Thrown e, set_retryCount (delete key (retryCount w1)) w1)
  /\ retryCount (set_retryCount (delete key (retryCount w1)) w1) !! key = None.
Proof.
  intros Hop Hfatal.
  assert (He : isRetryableError e = false).
  { destruct Hfatal as [He|[Hid Hin]]; [exact He|].
    exact (own_errors_not_retryable messageId e Hid Hin). }
  split.
  - exact (retry_fatal operation key fuel w e w1 Hop He).
  - apply count_clear.
Qed.

Lemma fatal_error_rethrown_at_once_witness :
  let w := mkWorld [] {[ "op" := 2 ]} 0 [] in
  let e := mkError "Message with ID 7 not found" in
  retry 1 (throw e : Promise unit) "op" w
  = Some (Thrown e, mkWorld [] (delete "op" {[ "op" := 2 ]}) 0 [])
  /\ (delete "op" ({[ "op" := 2 ]} : gmap string Z)) !! "op" = None.
Proof.
  intros w e.
  apply (fatal_error_rethrown_at_once (T := unit) (throw e) "op" 0
           (Integer 7) w e w).
  - reflexivity.
  - right. split; [reflexivity|]. simpl. do 9 right. left. reflexivity.
Defined.

(** ** Conflicts and missing rows *)

(** C5: once a row with the identifier is stored, another [insertMessage]
    with that identifier never returns and never changes the table; with
    arguments that pass validation (and an engine that raises nothing) it
    throws the conflict error, found by the existence check, at once. *)
Theorem second_insert_conflicts fuel messageId text createdAt updatedAt w :
  select_one messageId (database w) <> None ->
  (forall o w',
      insertMessage fuel messageId text createdAt updatedAt w = Some (o, w') ->
      (exists e, o = Thrown e) /\ database w' = database w)
  /\ (validateMessageId messageId = None ->
      validateContent text = None ->
      validateTimestamps createdAt updatedAt = None ->
      pending w = [] ->
      insertMessage (S fuel) messageId text createdAt updatedAt w
      = Some (Thrown (mkError ("Message with ID " +:+ toString messageId
                               +:+ " already exists")),
              clear ("insertMessage_" +:+ toString messageId) w)).
Proof.
  intros Hpresent. split.
  - intros o w' Hrun.
    pose proof (insertMessage_triple fuel messageId text createdAt updatedAt
                  (database w) (clock w) w o w') as H.
    specialize (H (conj eq_refl (Z.le_refl _)) Hrun).
    destruct o as [v|e]; simpl in H.
    + destruct H as (_ & _ & _ & Habsent & _). contradiction.
    + split; [eauto|apply H].
  - intros Hid Htext Htime Hquiet. apply insertMessage_conflict; assumption.
Qed.

Lemma second_insert_conflicts_witness :
  let w := fresh [hello_row] 1700000000500 [] in
  select_one (Integer 7) (database w) <> None
  /\ (forall o w',
        insertMessage 2 (Integer 7) (code_units "again") (Integer 5) (Integer 6)
          w = Some (o, w') ->
        (exists e, o = Thrown e) /\ database w' = database w)
  /\ insertMessage 2 (Integer 7) (code_units "again") (Integer 5) (Integer 6) w
     = Some (Thrown (mkError "Message with ID 7 already exists"),
             clear "insertMessage_7" w).
Proof.
  intros w.
  assert (Hpresent : select_one (Integer 7) (database w) <> None)
    by discriminate.
  split; [exact Hpresent|].
  destruct (second_insert_conflicts 1 (Integer 7) (code_units "again")
              (Integer 5) (Integer 6) w Hpresent) as [_ Hconflict].
  split.
  - apply (second_insert_conflicts 2 (Integer 7) (code_units "again")
             (Integer 5) (Integer 6) w Hpresent).
  - apply Hconflict; reflexivity.
Defined.

(** C6: on an identifier that is not stored, [updateMessage] and
    [deleteMessage] report zero changed rows, throw their "not found" error
    and leave the table as it was. *)
Theorem missing_row_not_found fuel messageId w :
  validateMessageId messageId = None ->
  select_one messageId (database w) = None ->
  pending w = [] ->
  (forall text, validateContent text = None ->
     fst (update_where text (Integer (clock w)) messageId (database w)) = 0
     /\ exists w',
         updateMessage (S fuel) messageId text w
         = Some (Thrown (mkError ("Message with ID " +:+ toString messageId
                                  +:+ " not found")), w')
         /\ database w' = database w)
  /\ fst (delete_where messageId (database w)) = 0
  /\ exists w',
      deleteMessage (S fuel) messageId w
      = Some (Thrown (mkError "Message not found"), w')
      /\ database w' = database w.
Proof.
  intros Hid Habsent Hquiet. repeat split.
  - rewrite update_where_absent by assumption. reflexivity.
  - eexists. split; [apply updateMessage_not_found; assumption|reflexivity].
  - rewrite delete_where_absent by assumption. reflexivity.
  - eexists. split; [apply deleteMessage_not_found; assumption|reflexivity].
Qed.

Lemma missing_row_not_found_witness :
  let w := fresh [hello_row] 1700000000500 [] in
  fst (update_where (code_units "world") (Integer 1700000000500) (Integer 8)
         [hello_row]) = 0
  /\ (exists w',
        updateMessage 1 (Integer 8) (code_units "world") w
        = Some (Thrown (mkError "Message with ID 8 not found"), w')
        /\ database w' = [hello_row])
  /\ (exists w',
        deleteMessage 1 (Integer 8) w
        = Some (Thrown (mkError "Message not found"), w')
        /\ database w' = [hello_row]).
Proof.
  intros w.
  destruct (missing_row_not_found 0 (Integer 8) w) as (Hu & _ & Hd);
    try reflexivity.
  destruct (Hu (code_units "world") eq_refl) as [Hc Hup].
  split; [exact Hc|]. split; [exact Hup|exact Hd].
Defined.

(** ** Round trip *)

(** C7: after [insertMessage(id, "hello", t1, t1)] has returned,
    [getMessage(id)] returns the record with that identifier, the content
    "hello" and both timestamps equal to [t1]. *)
Theorem insert_then_get fuel fuel' messageId t1 w w' :
  insertMessage fuel messageId (code_units "hello") t1 t1 w
  = Some (Returned tt, w') ->
  pending w' = [] ->
  exists r,
    getMessage (S fuel') messageId w' = Some (Returned (Some r), w')
    /\ message_id r = messageId
    /\ content r = code_units "hello"
    /\ created_at r = t1
    /\ updated_at r = t1.
Proof.
  intros Hinsert Hquiet.
  pose proof (insertMessage_triple fuel messageId (code_units "hello") t1 t1
                (database w) (clock w) w _ w'
                (conj eq_refl (Z.le_refl _)) Hinsert) as H.
  simpl in H. destruct H as (Hid & _ & _ & Habsent & Hrows & _).
  eexists. split.
  - rewrite getMessage_quiet by assumption. rewrite Hrows.
    erewrite select_one_app_new; [reflexivity|assumption|reflexivity].
  - repeat split.
Qed.

Lemma insert_then_get_witness :
  let w := fresh [] 1700000000500 [Some "database is locked"] in
  let w' := mkWorld [hello_row] {[ "messageExists_7" := 1 ]} 1700000001500 []
  in
  insertMessage 2 (Integer 7) hello (Integer 1700000000000)
    (Integer 1700000000000) w = Some (Returned tt, w')
  /\ exists r,
      getMessage 1 (Integer 7) w' = Some (Returned (Some r), w')
      /\ message_id r = Integer 7
      /\ content r = hello
      /\ created_at r = Integer 1700000000000
      /\ updated_at r = Integer 1700000000000.
Proof.
  intros w w'.
  assert (Hinsert : insertMessage 2 (Integer 7) hello (Integer 1700000000000)
                      (Integer 1700000000000) w = Some (Returned tt, w'))
    by (vm_compute; reflexivity).
  split; [exact Hinsert|].
  exact (insert_then_get 2 0 (Integer 7) (Integer 1700000000000) w w'
           Hinsert eq_refl).
Defined.

(** ** Validation of the content *)

(** C8: a content that is empty once trimmed, or longer than 1,000,000 bytes
    in UTF-8, makes [insertMessage] and [updateMessage] throw before any
    statement runs: the table, the engine script and the clock are those of
    the call, and with a valid identifier the error names the cause. *)
Theorem invalid_content_rejected fuel messageId text createdAt updatedAt w :
  length (trim text) = 0%nat \/ MAX_CONTENT_LENGTH < byteLength text ->
  exists e_insert e_update,
    insertMessage (S fuel) messageId text createdAt updatedAt w
    = Some (Thrown e_insert, clear ("insertMessage_" +:+ toString messageId) w)
    /\ updateMessage (S fuel) messageId text w
       = Some (Thrown e_update,
               clear ("updateMessage_" +:+ toString messageId) w)
    /\ (validateMessageId messageId = None ->
        e_insert = e_update
        /\ (length (trim text) = 0%nat -> e_insert = empty_content)
        /\ (length (trim text) <> 0%nat -> e_insert = oversized_content)).
Proof.
  intros Hbad.
  assert (Htext : exists e,
             validateContent text = Some e /\ isRetryableError e = false
             /\ (length (trim text) = 0%nat -> e = empty_content)
             /\ (length (trim text) <> 0%nat -> e = oversized_content)).
  { destruct (Nat.eq_dec (length (trim text)) 0%nat) as [H0|H0].
    - exists empty_content. rewrite validateContent_empty by assumption.
      repeat split; tauto.
    - exists oversized_content. destruct Hbad as [?|Hbig]; [contradiction|].
      rewrite validateContent_oversized by assumption. repeat split; tauto. }
  destruct Htext as (e & Htext & He & Hempty & Hbig).
  destruct (validateMessageId messageId) as [e0|] eqn:Hid.
  - exists e0, e0. pose proof (validateMessageId_Some _ _ Hid) as He0.
    split; [|split; [|discriminate]].
    + unfold insertMessage. apply retry_fatal; [|exact He0].
      apply andThen_thrown, check_throws, Hid.
    + unfold updateMessage. apply retry_fatal; [|exact He0].
      apply andThen_thrown, check_throws, Hid.
  - exists e, e. split; [|split].
    + apply insertMessage_rejects_content; assumption.
    + apply updateMessage_rejects_content; assumption.
    + intros _. auto.
Qed.

Lemma invalid_content_rejected_witness :
  let blank := [32; 9; 12288; 10]%N in
  let w := fresh [hello_row] 1700000000500 [] in
  length (trim blank) = 0%nat
  /\ exists e_insert e_update,
      insertMessage 1 (Integer 7) blank (Integer 1) (Integer 1) w
      = Some (Thrown e_insert, clear "insertMessage_7" w)
      /\ updateMessage 1 (Integer 7) blank w
         = Some (Thrown e_update, clear "updateMessage_7" w)
      /\ (validateMessageId (Integer 7) = None ->
          e_insert = e_update
          /\ (length (trim blank) = 0%nat -> e_insert = empty_content)
          /\ (length (trim blank) <> 0%nat -> e_insert = oversized_content)).
Proof.
  intros blank w. split; [reflexivity|].
  apply (invalid_content_rejected 0 (Integer 7) blank (Integer 1) (Integer 1)
           w).
  left. reflexivity.
Defined.

(** ** Content is stored untrimmed *)




(** ** Where the code departs from the specification *)

(** C1: a call that returns after a retryable failure leaves the counter of
    its key in the map.  Here [getMessageCount] meets one "database is locked"
    and then returns 0; the key keeps the count 1. *)
Theorem counter_survives_success :
  getMessageCount 2 (fresh [] 0 [Some "database is locked"])
  = Some (Returned 0, mkWorld [] {[ "getMessageCount" := 1 ]} 1000 []).
Proof. vm_compute. reflexivity. Qed.

(** C3: two calls of [getMessageCount] in a row, each meeting "database is
    locked" twice before the engine would answer.  The first returns on its
    third attempt; the second, which starts from the count 2 the first one
    left, throws at its second failure and never makes its third attempt
    (the engine answer it was to get is still pending). *)
Theorem stale_budget_cuts_retries :
  let locked := Some "database is locked" in
  let w := fresh [] 0 [locked; locked; None; locked; locked; None] in
  let w1 := mkWorld [] {[ "getMessageCount" := 2 ]} 2000
              [locked; locked; None] in
  getMessageCount 4 w = Some (Returned 0, w1)
  /\ getMessageCount 4 w1
     = Some (Thrown (mkError "database is locked"),
             mkWorld [] ∅ 3000 [None]).
Proof. split; vm_compute; reflexivity. Qed.

(** C2: a row inserted with a valid pair of timestamps in the future, then
    updated: [updated_at] becomes the clock of the update, earlier than
    [created_at]. *)
Theorem update_breaks_timestamp_order :
  let future := Integer 4102444800000 in
  let w := fresh [] 1700000000000 [] in
  let r := mkRow 1 (Integer 7) (code_units "world") future
             (Integer 1700000000000) in
  (insertMessage 1 (Integer 7) hello future future ;>
   updateMessage 1 (Integer 7) (code_units "world") ;>
   getMessage 1 (Integer 7)) w
  = Some (Returned (Some r), mkWorld [r] ∅ 1700000000000 [])
  /\ ltb (updated_at r) (created_at r) = true.
Proof. split; vm_compute; reflexivity. Qed.

(** C9: a stored row with [created_at = t1] later than the clock: the update
    returns, content and [updated_at] are rewritten, [created_at] stays, and
    the new [updated_at] is below [t1]. *)
Theorem update_stamps_clock_below_created :
  let t1 := Integer 4102444800000 in
  let w := fresh [mkRow 1 (Integer 7) hello t1 t1] 1700000000000 [] in
  let r := mkRow 1 (Integer 7) (code_units "world") t1
             (Integer 1700000000000) in
  updateMessage 1 (Integer 7) (code_units "world") w
  = Some (Returned tt, mkWorld [r] ∅ 1700000000000 [])
  /\ leb t1 (updated_at r) = false.
Proof. split; vm_compute; reflexivity. Qed.

(** * Further properties of the code *)

(** ** Listing and counting under any engine script *)

Lemma getMessages_triple fuel rows t :
  triple (stable rows t) (getMessages fuel)
    (fun listed w => listed = rows /\ stable rows t w) (stable rows t).
Proof.
  unfold getMessages. retry_stable rows t.
  exact (triple_query rows t (fun rows => rows)).
Qed.

Lemma getMessageCount_triple fuel rows t :
  triple (stable rows t) (getMessageCount fuel)
    (fun n w => n = Z.of_nat (length rows) /\ stable rows t w)
    (stable rows t).
Proof.
  unfold getMessageCount. retry_stable rows t.
  exact (triple_query rows t (fun rows => Z.of_nat (length rows))).
Qed.

Lemma stable_here w : stable (database w) (clock w) w.
Proof. split; [reflexivity|lia]. Qed.

(** ** Computations that leave the counters alone *)

Lemma keeps_andThen {A B} (m : Promise A) (k : A -> Promise B) :
  keeps_retryCount m -> (forall v, keeps_retryCount (k v)) ->
  keeps_retryCount (andThen m k).
Proof.
  intros Hm Hk w o w' Hrun. unfold andThen in Hrun.
  destruct (m w) as [[[v|e] w1]|] eqn:Hmw; [| |discriminate].
  - rewrite (Hk v w1 o w' Hrun). exact (Hm w _ w1 Hmw).
  - injection Hrun as <- <-. exact (Hm w _ w1 Hmw).
Qed.

Lemma keeps_check r : keeps_retryCount (check r).
Proof. intros w o w'. destruct r; intros [= <- <-]; reflexivity. Qed.

Lemma keeps_resolve {T} (v : T) : keeps_retryCount (resolve v).
Proof. intros w o w' [= <- <-]. reflexivity. Qed.

Lemma keeps_throw {T} e : keeps_retryCount (@throw T e).
Proof. intros w o w' [= <- <-]. reflexivity. Qed.

Lemma keeps_Date_now : keeps_retryCount Date_now.
Proof. intros w o w' [= <- <-]. reflexivity. Qed.

Lemma keeps_consult : keeps_retryCount consult.
Proof.
  intros w o w'. unfold consult.
  destruct (pending w) as [|[msg|] rest]; intros [= <- <-]; reflexivity.
Qed.

Lemma keeps_query {T} (stmt : list Row -> T) : keeps_retryCount (query stmt).
Proof.
  unfold query. apply keeps_andThen; [apply keeps_consult|].
  intros _ w o w' [= <- <-]. reflexivity.
Qed.

Lemma keeps_run stmt : keeps_retryCount (run stmt).
Proof.
  unfold run. apply keeps_andThen; [apply keeps_consult|].
  intros _ w o w'. destruct (stmt (database w)).
  intros [= <- <-]. reflexivity.
Qed.

Lemma keeps_transaction {T} (body : Promise T) :
  keeps_retryCount body -> keeps_retryCount (transaction body).
Proof.
  intros Hb w o w' Hrun. unfold transaction in Hrun.
  destruct (body w) as [[[v|e] w1]|] eqn:Hbw; [| |discriminate];
    injection Hrun as <- <-; exact (Hb w _ w1 Hbw).
Qed.

Ltac keeps :=
  repeat first
    [ apply keeps_check | apply keeps_resolve | apply keeps_throw
    | apply keeps_Date_now | apply keeps_query | apply keeps_run
    | apply keeps_transaction
    | apply keeps_andThen; [|intros ?]
    | match goal with
      | |- keeps_retryCount (if ?b then _ else _) => destruct b
      end ].

Lemma keeps_triple {T} (m : Promise T) P :
  keeps_retryCount m -> counters_only P -> triple P m (fun _ => P) P.
Proof.
  intros Hm HP w o w' Hw Hrun. pose proof (Hm w o w' Hrun) as Heq.
  destruct o; exact (HP w w' Heq Hw).
Qed.

Lemma triple_retry_counters {T} P (operation : Promise T) key fuel :
  triple P operation (fun _ => P) P -> respects key P ->
  triple P (retry fuel operation key) (fun _ => P) P.
Proof.
  intros Hop [Hagain Hclear]. induction fuel as [|fuel IH];
    intros w o w' HP Hrun; [discriminate|].
  simpl in Hrun.
  destruct (operation w) as [[[v|e] w1]|] eqn:Hw; [| |discriminate].
  - injection Hrun as <- <-. exact (Hop w _ w1 HP Hw).
  - pose proof (Hop w _ w1 HP Hw) as HE. simpl in HE.
    fold (count key w1) in Hrun.
    destruct (Z.ltb_spec (count key w1) MAX_RETRIES); simpl in Hrun.
    + destruct (isRetryableError e).
      * exact (IH _ o w' (Hagain w1 HE ltac:(assumption)) Hrun).
      * injection Hrun as <- <-. exact (Hclear w1 HE).
    + injection Hrun as <- <-. exact (Hclear w1 HE).
Qed.

(** What each operation does to a property of the counters: it keeps it as
    soon as the property survives the bookkeeping on the keys of the
    operation. *)
Ltac retry_counters :=
  apply triple_retry_counters; [|assumption];
  try (apply keeps_triple; [keeps|assumption]).

Lemma messageExists_counters fuel messageId P :
  counters_only P -> respects ("messageExists_" +:+ toString messageId) P ->
  triple P (messageExists fuel messageId) (fun _ => P) P.
Proof. intros HP HK. unfold messageExists. retry_counters. Qed.

Lemma getMessage_counters fuel messageId P :
  counters_only P -> respects ("getMessage_" +:+ toString messageId) P ->
  triple P (getMessage fuel messageId) (fun _ => P) P.
Proof. intros HP HK. unfold getMessage. retry_counters. Qed.

Lemma deleteMessage_counters fuel messageId P :
  counters_only P -> respects ("deleteMessage_" +:+ toString messageId) P ->
  triple P (deleteMessage fuel messageId) (fun _ => P) P.
Proof. intros HP HK. unfold deleteMessage. retry_counters. Qed.

Lemma updateMessage_counters fuel messageId text P :
  counters_only P -> respects ("updateMessage_" +:+ toString messageId) P ->
  triple P (updateMessage fuel messageId text) (fun _ => P) P.
Proof. intros HP HK. unfold updateMessage. retry_counters. Qed.

Lemma getMessages_counters fuel P :
  counters_only P -> respects "getMessages" P ->
  triple P (getMessages fuel) (fun _ => P) P.
Proof. intros HP HK. unfold getMessages. retry_counters. Qed.

Lemma getMessageCount_counters fuel P :
  counters_only P -> respects "getMessageCount" P ->
  triple P (getMessageCount fuel) (fun _ => P) P.
Proof. intros HP HK. unfold getMessageCount. retry_counters. Qed.

Lemma insertMessage_counters fuel messageId text createdAt updatedAt P :
  counters_only P ->
  respects ("insertMessage_" +:+ toString messageId) P ->
  respects ("messageExists_" +:+ toString messageId) P ->
  triple P (insertMessage fuel messageId text createdAt updatedAt)
    (fun _ => P) P.
Proof.
  intros HP HK HK'. unfold insertMessage.
  apply triple_retry_counters; [|assumption].
  apply triple_check; [intros _|auto].
  apply triple_check; [intros _|auto].
  apply triple_check; [intros _|auto].
  eapply triple_andThen; [apply messageExists_counters; assumption|].
  intros found. apply keeps_triple; [keeps|assumption].
Qed.

(** ** Reading *)

Lemma select_one_found messageId rows :
  select_one messageId rows <> None <->
  Exists (fun r => message_id r = messageId) rows.
Proof.
  unfold select_one, matches. induction rows as [|r rows IH]; simpl.
  - split; [congruence|]. intros H. inversion H.
  - case_bool_decide as Hr.
    + split; [intros _; left; exact Hr|discriminate].
    + rewrite IH. split; [intros H; right; exact H|].
      intros H. inversion H; [contradiction|assumption].
Qed.

(** X1: the four reading operations never change the table, whatever the
    engine raises and whether they return or throw. *)
Theorem reads_leave_table fuel messageId w w' :
  snd <$> messageExists fuel messageId w = Some w'
  \/ snd <$> getMessage fuel messageId w = Some w'
  \/ snd <$> getMessages fuel w = Some w'
  \/ snd <$> getMessageCount fuel w = Some w' ->
  database w' = database w.
Proof.
  intros [H|[H|[H|H]]].
  - destruct (messageExists fuel messageId w) as [[o w1]|] eqn:Hrun;
      [|discriminate]. injection H as <-.
    pose proof (messageExists_triple fuel messageId _ _ w o w1
                  (stable_here w) Hrun) as Hpost.
    destruct o; apply Hpost.
  - destruct (getMessage fuel messageId w) as [[o w1]|] eqn:Hrun;
      [|discriminate]. injection H as <-.
    pose proof (getMessage_triple fuel messageId _ _ w o w1
                  (stable_here w) Hrun) as Hpost.
    destruct o; apply Hpost.
  - destruct (getMessages fuel w) as [[o w1]|] eqn:Hrun;
      [|discriminate]. injection H as <-.
    pose proof (getMessages_triple fuel _ _ w o w1 (stable_here w) Hrun)
      as Hpost.
    destruct o; apply Hpost.
  - destruct (getMessageCount fuel w) as [[o w1]|] eqn:Hrun;
      [|discriminate]. injection H as <-.
    pose proof (getMessageCount_triple fuel _ _ w o w1 (stable_here w) Hrun)
      as Hpost.
    destruct o; apply Hpost.
Qed.

Lemma reads_leave_table_witness :
  let w := fresh [hello_row] 0 [Some "busy"; Some "disk I/O error"] in
  let w' := mkWorld [hello_row] ∅ 1000 [] in
  snd <$> getMessage 2 (Integer 7) w = Some w'
  /\ database w' = database w.
Proof.
  intros w w'.
  assert (H : snd <$> getMessage 2 (Integer 7) w = Some w')
    by (vm_compute; reflexivity).
  split; [exact H|].
  apply (reads_leave_table 2 (Integer 7) w w'). right. left. exact H.
Defined.

(** X2: when a reading operation returns, also after retries, its result is
    what the table holds: whether a row with the identifier is stored, the
    first such row, all rows in storage order, the number of rows. *)
Theorem reads_answer_from_table fuel messageId w w' :
  (forall found,
      messageExists fuel messageId w = Some (Returned found, w') ->
      (found = true <->
       Exists (fun r => message_id r = messageId) (database w)))
  /\ (forall found,
        getMessage fuel messageId w = Some (Returned found, w') ->
        found = select_one messageId (database w))
  /\ (forall listed,
        getMessages fuel w = Some (Returned listed, w') ->
        listed = database w)
  /\ (forall n,
        getMessageCount fuel w = Some (Returned n, w') ->
        n = Z.of_nat (length (database w))).
Proof.
  split; [|split; [|split]].
  - intros found Hrun.
    pose proof (messageExists_triple fuel messageId _ _ w _ w'
                  (stable_here w) Hrun) as [-> _].
    rewrite bool_decide_eq_true. apply select_one_found.
  - intros found Hrun.
    exact (proj1 (getMessage_triple fuel messageId _ _ w _ w'
                    (stable_here w) Hrun)).
  - intros listed Hrun.
    exact (proj1 (getMessages_triple fuel _ _ w _ w' (stable_here w) Hrun)).
  - intros n Hrun.
    exact (proj1 (getMessageCount_triple fuel _ _ w _ w' (stable_here w)
                    Hrun)).
Qed.

Lemma reads_answer_from_table_witness :
  let w := fresh [hello_row] 0 [Some "database is locked"] in
  let w' := mkWorld [hello_row] {[ "getMessageCount" := 1 ]} 1000 [] in
  getMessageCount 2 w = Some (Returned 1, w')
  /\ 1 = Z.of_nat (length (database w)).
Proof.
  intros w w'.
  assert (H : getMessageCount 2 w = Some (Returned 1, w'))
    by (vm_compute; reflexivity).
  split; [exact H|].
  destruct (reads_answer_from_table 2 (Integer 7) w w') as (_ & _ & _ & Hn).
  exact (Hn 1 H).
Defined.

Lemma getMessages_quiet fuel w :
  pending w = [] -> getMessages (S fuel) w = Some (Returned (database w), w).
Proof.
  intros Hquiet. unfold getMessages. apply retry_returned.
  exact (query_quiet (fun rows => rows) w Hquiet).
Qed.

Lemma getMessageCount_quiet fuel w :
  pending w = [] ->
  getMessageCount (S fuel) w
  = Some (Returned (Z.of_nat (length (database w))), w).
Proof.
  intros Hquiet. unfold getMessageCount. apply retry_returned.
  exact (query_quiet (fun rows => Z.of_nat (length rows)) w Hquiet).
Qed.

(** X3: with a valid identifier and an engine that raises nothing, the
    reading operations return at their first attempt and leave the world
    (table, counters, clock) exactly as it was; for an identifier that is
    not stored, [messageExists] returns [false] and [getMessage] returns
    null rather than throwing. *)
Theorem quiet_reads_return_at_once fuel messageId w :
  validateMessageId messageId = None ->
  pending w = [] ->
  messageExists (S fuel) messageId w
  = Some (Returned (bool_decide (select_one messageId (database w) <> None)),
          w)
  /\ getMessage (S fuel) messageId w
     = Some (Returned (select_one messageId (database w)), w)
  /\ getMessages (S fuel) w = Some (Returned (database w), w)
  /\ getMessageCount (S fuel) w
     = Some (Returned (Z.of_nat (length (database w))), w)
  /\ (Forall (fun r => message_id r <> messageId) (database w) ->
      messageExists (S fuel) messageId w = Some (Returned false, w)
      /\ getMessage (S fuel) messageId w = Some (Returned None, w)).
Proof.
  intros Hid Hquiet.
  pose proof (messageExists_quiet fuel messageId w Hid Hquiet) as Hex.
  pose proof (getMessage_quiet fuel messageId w Hid Hquiet) as Hget.
  split; [exact Hex|]. split; [exact Hget|]. split; [|split].
  - apply getMessages_quiet, Hquiet.
  - apply getMessageCount_quiet, Hquiet.
  - intros Habsent%select_one_None. rewrite Hex, Hget, Habsent.
    split; reflexivity.
Qed.

Lemma quiet_reads_return_at_once_witness :
  let w := fresh [hello_row] 1700000000500 [] in
  messageExists 1 (Integer 8) w = Some (Returned false, w)
  /\ getMessage 1 (Integer 8) w = Some (Returned None, w)
  /\ getMessage 1 (Integer 7) w = Some (Returned (Some hello_row), w).
Proof.
  intros w.
  destruct (quiet_reads_return_at_once 0 (Integer 8) w eq_refl eq_refl)
    as (_ & _ & _ & _ & Habsent).
  destruct (quiet_reads_return_at_once 0 (Integer 7) w eq_refl eq_refl)
    as (_ & Hget & _).
  destruct Habsent as [H1 H2].
  - repeat constructor. discriminate.
  - split; [exact H1|]. split; [exact H2|exact Hget].
Defined.

(** ** Inserting and deleting *)

Lemma select_one_deleted messageId rows :
  select_one messageId (snd (delete_where messageId rows)) = None.
Proof.
  unfold select_one, delete_where. simpl.
  induction rows as [|r rows IH]; simpl; [reflexivity|].
  destruct (matches messageId r) eqn:Hr; simpl; [exact IH|].
  rewrite Hr. exact IH.
Qed.



Lemma delete_where_shrinks messageId rows :
  select_one messageId rows <> None ->
  (length (snd (delete_where messageId rows)) < length rows)%nat.
Proof.
  unfold select_one, delete_where. simpl.
  induction rows as [|r rows IH]; simpl; [congruence|].
  destruct (matches messageId r); simpl.
  - intros _.
    pose proof (List.filter_length_le (fun r => negb (matches messageId r))
                  rows). lia.
  - intros H. apply IH in H. lia.
Qed.

(** X5: once [deleteMessage] has returned, also after retries, a row with
    the identifier was stored before, and the table is the previous one
    without the rows of that identifier, the others kept in their order;
    [messageExists] then answers [false] and [getMessage] returns null. *)
Theorem delete_removes_rows fuel fuel' messageId w w' :
  deleteMessage fuel messageId w = Some (Returned tt, w') ->
  Exists (fun r => message_id r = messageId) (database w)
  /\ database w'
     = List.filter (fun r => negb (bool_decide (message_id r = messageId)))
         (database w)
  /\ (length (database w') < length (database w))%nat
  /\ (pending w' = [] ->
      messageExists (S fuel') messageId w' = Some (Returned false, w')
      /\ getMessage (S fuel') messageId w' = Some (Returned None, w')).
Proof.
  intros Hdelete.
  pose proof (deleteMessage_triple fuel messageId _ _ w _ w'
                (stable_here w) Hdelete) as H.
  cbv beta iota in H. destruct H as (Hid & Hpresent & Hrows & _).
  split; [apply select_one_found, Hpresent|].
  split; [exact Hrows|].
  split; [rewrite Hrows; apply delete_where_shrinks, Hpresent|].
  intros Hquiet.
  rewrite (messageExists_quiet fuel' messageId w' Hid Hquiet).
  rewrite (getMessage_quiet fuel' messageId w' Hid Hquiet).
  rewrite Hrows, select_one_deleted.
  split; reflexivity.
Qed.

Lemma delete_removes_rows_witness :
  let r := mkRow 2 (Integer 8) (code_units "second") (Integer 5) (Integer 9)
  in
  let w := fresh [hello_row; r] 1700000000500 [Some "no response"] in
  let w' := mkWorld [r] {[ "deleteMessage_7" := 1 ]} 1700000001500 [] in
  deleteMessage 2 (Integer 7) w = Some (Returned tt, w')
  /\ database w' = [r]
  /\ getMessage 1 (Integer 7) w' = Some (Returned None, w').
Proof.
  intros r w w'.
  assert (H : deleteMessage 2 (Integer 7) w = Some (Returned tt, w'))
    by (vm_compute; reflexivity).
  split; [exact H|].
  destruct (delete_removes_rows 2 0 (Integer 7) w w' H)
    as (_ & _ & _ & Hreads).
  split; [reflexivity|]. exact (proj2 (Hreads eq_refl)).
Defined.



(** ** Updating *)




(** ** Rejected arguments *)

Lemma validateMessageId_invalid messageId :
  ~ (exists z, messageId = Integer z /\ 0 < z <= MAX_SAFE_INTEGER) ->
  validateMessageId messageId
  = Some (mkError
            "Invalid message ID: must be a positive integer within safe range").
Proof.
  intros Hbad. destruct (validateMessageId messageId) as [e|] eqn:Hv.
  - unfold validateMessageId in Hv. destruct (_ || _); [|discriminate].
    symmetry. exact Hv.
  - apply validateMessageId_None in Hv. contradiction.
Qed.

Lemma validateTimestamps_None_iff createdAt updatedAt :
  validateTimestamps createdAt updatedAt = None <->
  exists a b, createdAt = Integer a /\ updatedAt = Integer b /\ 0 < a <= b.
Proof.
  unfold validateTimestamps.
  destruct createdAt as [a|], updatedAt as [b|]; simpl.
  - destruct (Z.leb_spec a 0); simpl.
    { split; [discriminate|]. intros (a' & b' & [= <-] & _ & ?). lia. }
    destruct (Z.leb_spec b 0); simpl.
    { split; [discriminate|]. intros (a' & b' & [= <-] & [= <-] & ?). lia. }
    destruct (Z.ltb_spec b a).
    { split; [discriminate|]. intros (a' & b' & [= <-] & [= <-] & ?). lia. }
    split; [|reflexivity]. intros _. exists a, b. repeat split; lia.
  - destruct (a <=? 0); simpl;
      (split; [discriminate|]; intros (? & ? & _ & ? & _); discriminate).
  - split; [discriminate|]. intros (? & ? & ? & _). discriminate.
  - split; [discriminate|]. intros (? & ? & ? & _). discriminate.
Qed.

(** X8: an identifier that is not an integer between 1 and 2^53 - 1 makes
    each of the five operations that take one throw the identifier error at
    the first attempt, before any statement runs: the world after the call
    is the one before it with the counter of the key removed. *)
Theorem invalid_id_rejected fuel messageId text createdAt updatedAt w :
  ~ (exists z, messageId = Integer z /\ 0 < z <= MAX_SAFE_INTEGER) ->
  let e := mkError
             "Invalid message ID: must be a positive integer within safe range"
  in
  messageExists (S fuel) messageId w
  = Some (Thrown e, clear ("messageExists_" +:+ toString messageId) w)
  /\ getMessage (S fuel) messageId w
     = Some (Thrown e, clear ("getMessage_" +:+ toString messageId) w)
  /\ deleteMessage (S fuel) messageId w
     = Some (Thrown e, clear ("deleteMessage_" +:+ toString messageId) w)
  /\ insertMessage (S fuel) messageId text createdAt updatedAt w
     = Some (Thrown e, clear ("insertMessage_" +:+ toString messageId) w)
  /\ updateMessage (S fuel) messageId text w
     = Some (Thrown e, clear ("updateMessage_" +:+ toString messageId) w).
Proof.
  intros Hbad%validateMessageId_invalid e.
  repeat split;
    [ unfold messageExists | unfold getMessage | unfold deleteMessage
    | unfold insertMessage | unfold updateMessage ];
    (apply retry_fatal; [|reflexivity]);
    apply andThen_thrown, check_throws, Hbad.
Qed.

Lemma invalid_id_rejected_witness :
  let w := fresh [hello_row] 1700000000500 [Some "busy"] in
  let e := mkError
             "Invalid message ID: must be a positive integer within safe range"
  in
  getMessage 1 (Integer 0) w = Some (Thrown e, clear "getMessage_0" w)
  /\ deleteMessage 1 (NonInteger "7.5") w
     = Some (Thrown e, clear "deleteMessage_7.5" w)
  /\ updateMessage 1 (Integer 9007199254740992) (code_units "x") w
     = Some (Thrown e, clear "updateMessage_9007199254740992" w).
Proof.
  intros w e.
  destruct (invalid_id_rejected 0 (Integer 0) [] (Integer 1) (Integer 1) w)
    as (_ & H0 & _).
  { intros (z & [= <-] & ?). lia. }
  destruct (invalid_id_rejected 0 (NonInteger "7.5") [] (Integer 1)
              (Integer 1) w) as (_ & _ & H1 & _).
  { intros (z & ? & _). discriminate. }
  destruct (invalid_id_rejected 0 (Integer 9007199254740992)
              (code_units "x") (Integer 1) (Integer 1) w)
    as (_ & _ & _ & _ & H2).
  { intros (z & [= <-] & ?). unfold MAX_SAFE_INTEGER in *. lia. }
  split; [exact H0|]. split; [exact H1|exact H2].
Defined.

(** X9: [insertMessage] accepts a pair of timestamps exactly when both are
    positive integers with [created_at <= updated_at]; any other pair (with
    identifier and content valid) makes it throw one of the three timestamp
    errors at the first attempt, before any statement runs. *)
Theorem invalid_timestamps_rejected fuel messageId text createdAt updatedAt w :
  validateMessageId messageId = None ->
  validateContent text = None ->
  ~ (exists a b,
        createdAt = Integer a /\ updatedAt = Integer b /\ 0 < a <= b) ->
  exists e,
    In e [ mkError "Invalid created_at timestamp: must be a positive integer";
           mkError "Invalid updated_at timestamp: must be a positive integer";
           mkError
             "updated_at timestamp cannot be earlier than created_at timestamp"
         ]
    /\ insertMessage (S fuel) messageId text createdAt updatedAt w
       = Some (Thrown e, clear ("insertMessage_" +:+ toString messageId) w).
Proof.
  intros Hid Htext Hbad.
  destruct (validateTimestamps createdAt updatedAt) as [e|] eqn:Htime.
  2: { apply validateTimestamps_None_iff in Htime. contradiction. }
  assert (Hin : In e
    [ mkError "Invalid created_at timestamp: must be a positive integer";
      mkError "Invalid updated_at timestamp: must be a positive integer";
      mkError
        "updated_at timestamp cannot be earlier than created_at timestamp" ]).
  { unfold validateTimestamps in Htime.
    repeat match type of Htime with
           | (if ?b then _ else _) = _ => destruct b
           end;
      try discriminate; injection Htime as <-; simpl; tauto. }
  exists e. split; [exact Hin|].
  unfold insertMessage. apply retry_fatal.
  - rewrite (andThen_returned _ _ w tt w) by (apply check_passes, Hid).
    rewrite (andThen_returned _ _ w tt w) by (apply check_passes, Htext).
    apply andThen_thrown, check_throws, Htime.
  - destruct Hin as [<-|[<-|[<-|[]]]]; reflexivity.
Qed.

Lemma invalid_timestamps_rejected_witness :
  let w := fresh [] 1700000000500 [] in
  exists e,
    In e [ mkError "Invalid created_at timestamp: must be a positive integer";
           mkError "Invalid updated_at timestamp: must be a positive integer";
           mkError
             "updated_at timestamp cannot be earlier than created_at timestamp"
         ]
    /\ insertMessage 1 (Integer 7) hello (Integer 10) (Integer 9) w
       = Some (Thrown e, clear "insertMessage_7" w).
Proof.
  intros w.
  apply (invalid_timestamps_rejected 0 (Integer 7) hello (Integer 10)
           (Integer 9) w eq_refl eq_refl).
  intros (a & b & [= <-] & [= <-] & ?). lia.
Defined.

(** X10: a mutating operation that throws, for whatever reason and after
    whatever retries, leaves the table exactly as it was. *)
Theorem thrown_call_leaves_table fuel messageId text createdAt updatedAt
    w e w' :
  insertMessage fuel messageId text createdAt updatedAt w
  = Some (Thrown e, w')
  \/ updateMessage fuel messageId text w = Some (Thrown e, w')
  \/ deleteMessage fuel messageId w = Some (Thrown e, w') ->
  database w' = database w.
Proof.
  intros [H|[H|H]].
  - exact (proj1 (insertMessage_triple fuel messageId text createdAt
                    updatedAt _ _ w _ w' (stable_here w) H)).
  - exact (proj1 (updateMessage_triple fuel messageId text _ _ w _ w'
                    (stable_here w) H)).
  - exact (proj1 (deleteMessage_triple fuel messageId _ _ w _ w'
                    (stable_here w) H)).
Qed.

Lemma thrown_call_leaves_table_witness :
  let w := fresh [hello_row] 0 [None; Some "busy"; None; Some "disk full"] in
  let w' := mkWorld [hello_row] ∅ 1000 [] in
  insertMessage 2 (Integer 8) hello (Integer 1) (Integer 1) w
  = Some (Thrown (mkError "disk full"), w')
  /\ database w' = database w.
Proof.
  intros w w'.
  assert (H : insertMessage 2 (Integer 8) hello (Integer 1) (Integer 1) w
              = Some (Thrown (mkError "disk full"), w'))
    by (vm_compute; reflexivity).
  split; [exact H|].
  apply (thrown_call_leaves_table 2 (Integer 8) hello (Integer 1) (Integer 1)
           w (mkError "disk full") w').
  left. exact H.
Defined.

(** ** The states a manager can reach *)








(** ** Retry counters *)

Lemma counters_bounded_only : counters_only counters_bounded.
Proof. intros w w' Heq H k n. rewrite Heq. apply H. Qed.

Lemma count_bounded key w : counters_bounded w -> 0 <= count key w.
Proof.
  intros H. unfold count. destruct (retryCount w !! key) as [n|] eqn:Hn;
    simpl; [|lia]. specialize (H key n Hn). lia.
Qed.

Lemma counters_bounded_respects key : respects key counters_bounded.
Proof.
  split.
  - intros w H Hlt k n. unfold again. simpl.
    destruct (decide (key = k)) as [->|Hne].
    + rewrite lookup_insert_eq. intros [= <-].
      pose proof (count_bounded k w H). lia.
    + rewrite lookup_insert_ne by assumption. apply H.
  - intros w H k n. unfold clear. simpl.
    intros Hk%lookup_delete_Some. apply (H k n), Hk.
Qed.

Lemma call_counters_bounded w w' :
  call w w' -> counters_bounded w -> counters_bounded w'.
Proof.
  pose proof counters_bounded_only as Honly.
  pose proof counters_bounded_respects as Hres.
  intros [fuel messageId o w1 w2 Hrun|fuel messageId o w1 w2 Hrun
         |fuel messageId o w1 w2 Hrun|fuel o w1 w2 Hrun
         |fuel messageId text createdAt updatedAt o w1 w2 Hrun
         |fuel messageId text o w1 w2 Hrun|fuel o w1 w2 Hrun|t script w1] Hb.
  - pose proof (messageExists_counters fuel messageId _ Honly (Hres _)
                  w1 o w2 Hb Hrun) as H. destruct o; exact H.
  - pose proof (deleteMessage_counters fuel messageId _ Honly (Hres _)
                  w1 o w2 Hb Hrun) as H. destruct o; exact H.
  - pose proof (getMessage_counters fuel messageId _ Honly (Hres _)
                  w1 o w2 Hb Hrun) as H. destruct o; exact H.
  - pose proof (getMessages_counters fuel _ Honly (Hres _)
                  w1 o w2 Hb Hrun) as H. destruct o; exact H.
  - pose proof (insertMessage_counters fuel messageId text createdAt
                  updatedAt _ Honly (Hres _) (Hres _) w1 o w2 Hb Hrun) as H.
    destruct o; exact H.
  - pose proof (updateMessage_counters fuel messageId text _ Honly (Hres _)
                  w1 o w2 Hb Hrun) as H. destruct o; exact H.
  - pose proof (getMessageCount_counters fuel _ Honly (Hres _)
                  w1 o w2 Hb Hrun) as H. destruct o; exact H.
  - exact Hb.
Qed.

(** X13: in every state reached from a manager without counters through
    calls of the operations, every stored retry counter lies between 1 and
    [MAX_RETRIES]. *)
Theorem reachable_counters_bounded w0 w :
  rtc call w0 w -> retryCount w0 = ∅ -> counters_bounded w.
Proof.
  intros Hreach Hempty.
  assert (H0 : counters_bounded w0).
  { intros k n. rewrite Hempty, lookup_empty. discriminate. }
  clear Hempty. revert H0.
  induction Hreach as [w|w1 w2 w3 Hcall _ IH]; [auto|].
  intros Hb. apply IH. exact (call_counters_bounded w1 w2 Hcall Hb).
Qed.

Lemma reachable_counters_bounded_witness :
  let locked := Some "database is locked" in
  let w0 := fresh [] 0 [locked; locked; locked] in
  let w := mkWorld [] {[ "getMessageCount" := 3 ]} 3000 [] in
  rtc call w0 w /\ counters_bounded w.
Proof.
  intros locked w0 w.
  assert (Hreach : rtc call w0 w).
  { eapply rtc_l; [|apply rtc_refl].
    apply (call_getMessageCount 4 (Returned 0)). vm_compute. reflexivity. }
  split; [exact Hreach|].
  exact (reachable_counters_bounded w0 w Hreach eq_refl).
Defined.

(** X14: whenever [retry] throws, whatever the operation does, the counter
    of its key is absent afterwards. *)
Theorem thrown_retry_clears_counter {T} (operation : Promise T) key fuel
    w e w' :
  retry fuel operation key w = Some (Thrown e, w') ->
  retryCount w' !! key = None.
Proof.
  revert w. induction fuel as [|fuel IH]; intros w Hrun; [discriminate|].
  simpl in Hrun.
  destruct (operation w) as [[[v|e1] w1]|]; [discriminate| |discriminate].
  destruct (_ && _).
  - exact (IH _ Hrun).
  - injection Hrun as <- <-. simpl. apply lookup_delete_eq.
Qed.

Lemma thrown_retry_clears_counter_witness :
  let locked := Some "database is locked" in
  let w := mkWorld [] {[ "getMessages" := 2 ]} 0 [locked; locked] in
  let w' := mkWorld [] ∅ 1000 [] in
  getMessages 3 w = Some (Thrown (mkError "database is locked"), w')
  /\ retryCount w' !! "getMessages" = None.
Proof.
  intros locked w w'.
  assert (H : getMessages 3 w
              = Some (Thrown (mkError "database is locked"), w'))
    by (vm_compute; reflexivity).
  split; [exact H|].
  exact (thrown_retry_clears_counter _ "getMessages" 3 w _ w' H).
Defined.

(** ** Which counters a call touches *)

Lemma lookup_counters_only k v :
  counters_only (fun w => retryCount w !! k = v).
Proof. intros w w' Heq H. rewrite Heq. exact H. Qed.

Lemma lookup_respects key k v :
  key <> k -> respects key (fun w => retryCount w !! k = v).
Proof.
  intros Hne. split.
  - intros w H _. unfold again. simpl.
    rewrite lookup_insert_ne by assumption. exact H.
  - intros w H. unfold clear. simpl.
    rewrite lookup_delete_ne by assumption. exact H.
Qed.

Ltac other_counter lemma :=
  let H := fresh in
  match goal with
  | Hrun : _ = Some (?o, ?w') |- retryCount ?w' !! ?k = retryCount ?w !! _ =>
      pose proof (lemma (fun w0 => retryCount w0 !! k = retryCount w !! k))
        as H;
      specialize (H (lookup_counters_only _ _));
      repeat (specialize (H ltac:(apply lookup_respects; congruence)));
      specialize (H w o w' eq_refl Hrun); destruct o; exact H
  end.

Lemma messageExists_other_counter fuel messageId k w o w' :
  k <> "messageExists_" +:+ toString messageId ->
  messageExists fuel messageId w = Some (o, w') ->
  retryCount w' !! k = retryCount w !! k.
Proof. intros Hk Hrun. other_counter (messageExists_counters fuel messageId). Qed.

Lemma getMessage_other_counter fuel messageId k w o w' :
  k <> "getMessage_" +:+ toString messageId ->
  getMessage fuel messageId w = Some (o, w') ->
  retryCount w' !! k = retryCount w !! k.
Proof. intros Hk Hrun. other_counter (getMessage_counters fuel messageId). Qed.

Lemma deleteMessage_other_counter fuel messageId k w o w' :
  k <> "deleteMessage_" +:+ toString messageId ->
  deleteMessage fuel messageId w = Some (o, w') ->
  retryCount w' !! k = retryCount w !! k.
Proof. intros Hk Hrun. other_counter (deleteMessage_counters fuel messageId). Qed.

Lemma updateMessage_other_counter fuel messageId text k w o w' :
  k <> "updateMessage_" +:+ toString messageId ->
  updateMessage fuel messageId text w = Some (o, w') ->
  retryCount w' !! k = retryCount w !! k.
Proof.
  intros Hk Hrun. other_counter (updateMessage_counters fuel messageId text).
Qed.

Lemma insertMessage_other_counter fuel messageId text createdAt updatedAt
    k w o w' :
  k <> "insertMessage_" +:+ toString messageId ->
  k <> "messageExists_" +:+ toString messageId ->
  insertMessage fuel messageId text createdAt updatedAt w = Some (o, w') ->
  retryCount w' !! k = retryCount w !! k.
Proof.
  intros Hk Hk' Hrun.
  other_counter (insertMessage_counters fuel messageId text createdAt
                   updatedAt).
Qed.

Lemma getMessages_other_counter fuel k w o w' :
  k <> "getMessages" ->
  getMessages fuel w = Some (o, w') ->
  retryCount w' !! k = retryCount w !! k.
Proof. intros Hk Hrun. other_counter (getMessages_counters fuel). Qed.

Lemma getMessageCount_other_counter fuel k w o w' :
  k <> "getMessageCount" ->
  getMessageCount fuel w = Some (o, w') ->
  retryCount w' !! k = retryCount w !! k.
Proof. intros Hk Hrun. other_counter (getMessageCount_counters fuel). Qed.

(** X15: a call changes no retry counter but the one of its own key; for
    [insertMessage] that is its own key and the key of the [messageExists]
    call it makes. *)
Theorem call_touches_own_counter_only fuel messageId text createdAt updatedAt
    k w w' :
  (k <> "messageExists_" +:+ toString messageId
   /\ snd <$> messageExists fuel messageId w = Some w')
  \/ (k <> "getMessage_" +:+ toString messageId
      /\ snd <$> getMessage fuel messageId w = Some w')
  \/ (k <> "deleteMessage_" +:+ toString messageId
      /\ snd <$> deleteMessage fuel messageId w = Some w')
  \/ (k <> "updateMessage_" +:+ toString messageId
      /\ snd <$> updateMessage fuel messageId text w = Some w')
  \/ (k <> "insertMessage_" +:+ toString messageId
      /\ k <> "messageExists_" +:+ toString messageId
      /\ snd <$> insertMessage fuel messageId text createdAt updatedAt w
         = Some w')
  \/ (k <> "getMessages" /\ snd <$> getMessages fuel w = Some w')
  \/ (k <> "getMessageCount" /\ snd <$> getMessageCount fuel w = Some w') ->
  retryCount w' !! k = retryCount w !! k.
Proof.
  intros [[Hk H]|[[Hk H]|[[Hk H]|[[Hk H]|[(Hk & Hk' & H)|[[Hk H]|[Hk H]]]]]]];
    match type of H with
    | snd <$> ?call = _ =>
        destruct call as [[o w1]|] eqn:Hrun; [|discriminate];
        injection H as <-
    end.
  - exact (messageExists_other_counter _ _ _ _ _ _ Hk Hrun).
  - exact (getMessage_other_counter _ _ _ _ _ _ Hk Hrun).
  - exact (deleteMessage_other_counter _ _ _ _ _ _ Hk Hrun).
  - exact (updateMessage_other_counter _ _ _ _ _ _ _ Hk Hrun).
  - exact (insertMessage_other_counter _ _ _ _ _ _ _ _ _ Hk Hk' Hrun).
  - exact (getMessages_other_counter _ _ _ _ _ Hk Hrun).
  - exact (getMessageCount_other_counter _ _ _ _ _ Hk Hrun).
Qed.

Lemma call_touches_own_counter_only_witness :
  let w := mkWorld [] {[ "getMessages" := 2 ]} 0 [Some "busy"] in
  let w' := mkWorld [] {[ "getMessages" := 2; "getMessageCount" := 1 ]}
              1000 [] in
  snd <$> getMessageCount 2 w = Some w'
  /\ retryCount w' !! "getMessages" = retryCount w !! "getMessages".
Proof.
  intros w w'.
  assert (H : snd <$> getMessageCount 2 w = Some w')
    by (vm_compute; reflexivity).
  split; [exact H|].
  apply (call_touches_own_counter_only 2 (Integer 1) [] (Integer 1)
           (Integer 1) "getMessages" w w').
  do 6 right. split; [discriminate|exact H].
Defined.

Lemma append_inj_l p x y : p +:+ x = p +:+ y -> x = y.
Proof.
  induction p as [|a p IH]; simpl; [auto|]. intros [= H]. exact (IH H).
Qed.

Lemma to_int_proper z :
  Z.to_int z <> Decimal.Pos Decimal.Nil /\ Z.to_int z <> Decimal.Neg Decimal.Nil.
Proof.
  destruct z as [|p|p]; simpl; split; try discriminate;
    intros [= H]; exact (DecimalPos.Unsigned.to_uint_nonnil p H).
Qed.

(** Two integers with the same decimal notation are equal. *)
Lemma toString_Integer_inj a b :
  toString (Integer a) = toString (Integer b) -> a = b.
Proof.
  unfold toString. intros H.
  apply (f_equal NilZero.int_of_string) in H.
  destruct (to_int_proper a), (to_int_proper b).
  rewrite !NilZero.isi in H by assumption.
  injection H as H. apply (f_equal Z.of_int) in H.
  rewrite !DecimalZ.of_to in H. exact H.
Qed.

Lemma keys_differ p q a b :
  In p ["messageExists_"; "getMessage_"; "deleteMessage_"; "insertMessage_";
        "updateMessage_"] ->
  In q ["messageExists_"; "getMessage_"; "deleteMessage_"; "insertMessage_";
        "updateMessage_"] ->
  a <> b ->
  p +:+ toString (Integer a) <> q +:+ toString (Integer b).
Proof.
  intros Hp Hq Hab Heq. simpl in Hp, Hq.
  destruct Hp as [<-|[<-|[<-|[<-|[<-|[]]]]]];
    destruct Hq as [<-|[<-|[<-|[<-|[<-|[]]]]]];
    try discriminate Heq;
    apply append_inj_l, toString_Integer_inj in Heq; contradiction.
Qed.

(** X16: the keys of two different integer identifiers differ, so a call
    for one identifier changes none of the five counters of another one. *)
Theorem other_identifier_keeps_budget fuel a b text createdAt updatedAt
    prefix w w' :
  a <> b ->
  In prefix ["messageExists_"; "getMessage_"; "deleteMessage_";
             "insertMessage_"; "updateMessage_"] ->
  snd <$> messageExists fuel (Integer a) w = Some w'
  \/ snd <$> getMessage fuel (Integer a) w = Some w'
  \/ snd <$> deleteMessage fuel (Integer a) w = Some w'
  \/ snd <$> updateMessage fuel (Integer a) text w = Some w'
  \/ snd <$> insertMessage fuel (Integer a) text createdAt updatedAt w
     = Some w' ->
  retryCount w' !! (prefix +:+ toString (Integer b))
  = retryCount w !! (prefix +:+ toString (Integer b)).
Proof.
  intros Hab Hp Hcall.
  assert (Hne : forall q,
             In q ["messageExists_"; "getMessage_"; "deleteMessage_";
                   "insertMessage_"; "updateMessage_"] ->
             prefix +:+ toString (Integer b) <> q +:+ toString (Integer a)).
  { intros q Hq. apply keys_differ; auto. }
  destruct Hcall as [H|[H|[H|[H|H]]]];
    match type of H with
    | snd <$> ?call = _ =>
        destruct call as [[o w1]|] eqn:Hrun; [|discriminate];
        injection H as <-
    end.
  - exact (messageExists_other_counter _ _ _ _ _ _
             (Hne "messageExists_" ltac:(simpl; tauto)) Hrun).
  - exact (getMessage_other_counter _ _ _ _ _ _
             (Hne "getMessage_" ltac:(simpl; tauto)) Hrun).
  - exact (deleteMessage_other_counter _ _ _ _ _ _
             (Hne "deleteMessage_" ltac:(simpl; tauto)) Hrun).
  - exact (updateMessage_other_counter _ _ _ _ _ _ _
             (Hne "updateMessage_" ltac:(simpl; tauto)) Hrun).
  - exact (insertMessage_other_counter _ _ _ _ _ _ _ _ _
             (Hne "insertMessage_" ltac:(simpl; tauto))
             (Hne "messageExists_" ltac:(simpl; tauto)) Hrun).
Qed.

Lemma other_identifier_keeps_budget_witness :
  let w := mkWorld [hello_row] {[ "getMessage_8" := 2 ]} 0
             [Some "busy"; Some "busy"] in
  let w' := mkWorld [hello_row] {[ "getMessage_8" := 2; "getMessage_7" := 2 ]}
              2000 [] in
  snd <$> getMessage 3 (Integer 7) w = Some w'
  /\ retryCount w' !! "getMessage_8" = retryCount w !! "getMessage_8".
Proof.
  intros w w'.
  assert (H : snd <$> getMessage 3 (Integer 7) w = Some w')
    by (vm_compute; reflexivity).
  split; [exact H|].
  apply (other_identifier_keeps_budget 3 7 8 [] (Integer 1) (Integer 1)
           "getMessage_" w w').
  - discriminate.
  - simpl. tauto.
  - right. left. exact H.
Defined.

(** ** Every call comes back *)

Lemma comes_back_andThen {A B} P (m : Promise A) (k : A -> Promise B) :
  comes_back P m -> (forall v, comes_back P (k v)) ->
  comes_back P (andThen m k).
Proof.
  intros Hm Hk w HP. destruct (Hm w HP) as ([v|e] & w1 & Hrun & HP1).
  - destruct (Hk v w1 HP1) as (o & w2 & Hrun2 & HP2).
    exists o, w2. split; [|exact HP2].
    rewrite (andThen_returned _ _ _ _ _ Hrun). exact Hrun2.
  - exists (Thrown e), w1. split; [|exact HP1].
    exact (andThen_thrown _ _ _ _ _ Hrun).
Qed.

(** A computation that always comes back and leaves the counters alone. *)
Lemma comes_back_keeps {T} P (m : Promise T) :
  (forall w, m w <> None) -> keeps_retryCount m -> counters_only P ->
  comes_back P m.
Proof.
  intros Htotal Hkeeps HP w Hw.
  destruct (m w) as [[o w']|] eqn:Hrun; [|destruct (Htotal w Hrun)].
  exists o, w'. split; [reflexivity|].
  exact (HP w w' (Hkeeps w o w' Hrun) Hw).
Qed.

Lemma query_total {T} (stmt : list Row -> T) w : query stmt w <> None.
Proof.
  unfold query, andThen, consult.
  destruct (pending w) as [|[msg|] rest]; discriminate.
Qed.

Lemma run_total stmt w : run stmt w <> None.
Proof.
  unfold run, andThen, consult.
  destruct (pending w) as [|[msg|] rest]; simpl;
    try destruct (stmt (database w)); discriminate.
Qed.

Lemma transaction_run_total stmt w : transaction (run stmt) w <> None.
Proof.
  unfold transaction. pose proof (run_total stmt w).
  destruct (run stmt w) as [[[v|e] w1]|]; congruence.
Qed.

Lemma comes_back_check P r : comes_back P (check r).
Proof.
  intros w HP. destruct r as [e|]; [exists (Thrown e)|exists (Returned tt)];
    exists w; split; auto.
Qed.

Lemma comes_back_resolve {T} P (v : T) : comes_back P (resolve v).
Proof. intros w HP. exists (Returned v), w. split; auto. Qed.

Lemma comes_back_throw {T} P e : comes_back P (@throw T e).
Proof. intros w HP. exists (Thrown e), w. split; auto. Qed.

Lemma comes_back_Date_now P : comes_back P Date_now.
Proof.
  intros w HP. exists (Returned (Integer (clock w))), w. split; auto.
Qed.

Lemma comes_back_query {T} P (stmt : list Row -> T) :
  counters_only P -> comes_back P (query stmt).
Proof.
  intros HP. apply comes_back_keeps;
    [apply query_total|apply keeps_query|exact HP].
Qed.

Lemma comes_back_transaction_run P stmt :
  counters_only P -> comes_back P (transaction (run stmt)).
Proof.
  intros HP. apply comes_back_keeps;
    [apply transaction_run_total|keeps|exact HP].
Qed.

(** With the counter of the key not negative, [retry] makes at most
    [MAX_RETRIES + 1] attempts of an operation that keeps that counter. *)
Lemma retry_comes_back {T} P (operation : Promise T) key fuel :
  (forall n, comes_back (fun w => P w /\ count key w = n) operation) ->
  respects key P ->
  (forall w, P w -> 0 <= count key w) ->
  MAX_RETRIES < Z.of_nat fuel ->
  comes_back P (retry fuel operation key).
Proof.
  intros Hop [Hagain Hclear] Hpos Hfuel w HP.
  assert (Hbudget : Z.max 0 (MAX_RETRIES - count key w) < Z.of_nat fuel)
    by (specialize (Hpos w HP); unfold MAX_RETRIES in *; lia).
  clear Hfuel. revert w HP Hbudget.
  induction fuel as [|fuel IH]; intros w HP Hbudget; [lia|].
  destruct (Hop (count key w) w (conj HP eq_refl))
    as (o & w1 & Hrun & HP1 & Hcount).
  destruct o as [v|e].
  { rewrite (retry_returned _ _ _ _ _ _ Hrun). eauto. }
  destruct (Z.lt_ge_cases (count key w1) MAX_RETRIES) as [Hlt|Hge].
  - destruct (isRetryableError e) eqn:He.
    + rewrite (retry_again _ _ _ _ _ _ Hrun Hlt He).
      apply IH; [apply Hagain; assumption|].
      rewrite count_again. lia.
    + rewrite (retry_fatal _ _ _ _ _ _ Hrun He). eauto.
  - rewrite (retry_exhausted _ _ _ _ _ _ Hrun Hge). eauto.
Qed.

Lemma counters_only_count P key n :
  counters_only P -> counters_only (fun w => P w /\ count key w = n).
Proof.
  intros HP w w' Heq [Hw Hn]. split; [exact (HP w w' Heq Hw)|].
  unfold count in *. rewrite Heq. exact Hn.
Qed.

Lemma respects_count P key key' n :
  key <> key' -> respects key' P ->
  respects key' (fun w => P w /\ count key w = n).
Proof.
  intros Hne [Hagain Hclear]. split.
  - intros w [Hw Hn] Hlt. split; [auto|].
    unfold count, again in *. simpl.
    rewrite lookup_insert_ne by congruence. exact Hn.
  - intros w [Hw Hn]. split; [auto|].
    unfold count, clear in *. simpl.
    rewrite lookup_delete_ne by congruence. exact Hn.
Qed.

Ltac back :=
  repeat first
    [ apply comes_back_check | apply comes_back_resolve
    | apply comes_back_throw | apply comes_back_Date_now
    | apply comes_back_query; apply counters_only_count; assumption
    | apply comes_back_transaction_run; apply counters_only_count; assumption
    | apply comes_back_andThen; [|intros ?]
    | match goal with
      | |- comes_back _ (if ?b then _ else _) => destruct b
      end ].

Ltac retry_back :=
  apply retry_comes_back; [intros ?; back|assumption..].

Lemma messageExists_comes_back P fuel messageId :
  counters_only P ->
  respects ("messageExists_" +:+ toString messageId) P ->
  (forall w, P w -> 0 <= count ("messageExists_" +:+ toString messageId) w) ->
  MAX_RETRIES < Z.of_nat fuel ->
  comes_back P (messageExists fuel messageId).
Proof. intros. unfold messageExists. retry_back. Qed.

Lemma getMessage_comes_back P fuel messageId :
  counters_only P ->
  respects ("getMessage_" +:+ toString messageId) P ->
  (forall w, P w -> 0 <= count ("getMessage_" +:+ toString messageId) w) ->
  MAX_RETRIES < Z.of_nat fuel ->
  comes_back P (getMessage fuel messageId).
Proof. intros. unfold getMessage. retry_back. Qed.

Lemma deleteMessage_comes_back P fuel messageId :
  counters_only P ->
  respects ("deleteMessage_" +:+ toString messageId) P ->
  (forall w, P w -> 0 <= count ("deleteMessage_" +:+ toString messageId) w) ->
  MAX_RETRIES < Z.of_nat fuel ->
  comes_back P (deleteMessage fuel messageId).
Proof. intros. unfold deleteMessage. retry_back. Qed.

Lemma updateMessage_comes_back P fuel messageId text :
  counters_only P ->
  respects ("updateMessage_" +:+ toString messageId) P ->
  (forall w, P w -> 0 <= count ("updateMessage_" +:+ toString messageId) w) ->
  MAX_RETRIES < Z.of_nat fuel ->
  comes_back P (updateMessage fuel messageId text).
Proof. intros. unfold updateMessage. retry_back. Qed.

Lemma getMessages_comes_back P fuel :
  counters_only P -> respects "getMessages" P ->
  (forall w, P w -> 0 <= count "getMessages" w) ->
  MAX_RETRIES < Z.of_nat fuel ->
  comes_back P (getMessages fuel).
Proof. intros. unfold getMessages. retry_back. Qed.

Lemma getMessageCount_comes_back P fuel :
  counters_only P -> respects "getMessageCount" P ->
  (forall w, P w -> 0 <= count "getMessageCount" w) ->
  MAX_RETRIES < Z.of_nat fuel ->
  comes_back P (getMessageCount fuel).
Proof. intros. unfold getMessageCount. retry_back. Qed.

Lemma insertMessage_comes_back P fuel messageId text createdAt updatedAt :
  counters_only P ->
  respects ("insertMessage_" +:+ toString messageId) P ->
  respects ("messageExists_" +:+ toString messageId) P ->
  (forall w key, P w -> 0 <= count key w) ->
  MAX_RETRIES < Z.of_nat fuel ->
  comes_back P (insertMessage fuel messageId text createdAt updatedAt).
Proof.
  intros HP HK HK' Hpos Hfuel. unfold insertMessage.
  apply retry_comes_back; [|assumption|auto|assumption].
  intros n.
  apply comes_back_andThen; [apply comes_back_check|intros _].
  apply comes_back_andThen; [apply comes_back_check|intros _].
  apply comes_back_andThen; [apply comes_back_check|intros _].
  apply comes_back_andThen.
  - apply messageExists_comes_back; try assumption.
    + apply counters_only_count, HP.
    + apply respects_count; [discriminate|exact HK'].
    + intros w [Hw _]. auto.
  - intros found. back.
Qed.

(** X17: from a state whose counters are in range (every reachable state),
    each of the seven operations comes back, returning or throwing, when
    every retry loop may make [MAX_RETRIES + 1] = 4 attempts: no loop of
    [retry] makes a fifth attempt. *)
Theorem operations_come_back fuel messageId text createdAt updatedAt w :
  (4 <= fuel)%nat ->
  counters_bounded w ->
  messageExists fuel messageId w <> None
  /\ deleteMessage fuel messageId w <> None
  /\ getMessage fuel messageId w <> None
  /\ getMessages fuel w <> None
  /\ insertMessage fuel messageId text createdAt updatedAt w <> None
  /\ updateMessage fuel messageId text w <> None
  /\ getMessageCount fuel w <> None.
Proof.
  intros Hfuel Hb.
  assert (Hf : MAX_RETRIES < Z.of_nat fuel) by (unfold MAX_RETRIES; lia).
  pose proof counters_bounded_only as Honly.
  pose proof counters_bounded_respects as Hres.
  assert (Hpos : forall w key, counters_bounded w -> 0 <= count key w)
    by (intros; apply count_bounded; assumption).
  repeat split.
  - destruct (messageExists_comes_back _ fuel messageId Honly (Hres _)
                (fun w => Hpos w _) Hf w Hb) as (o & w' & -> & _).
    discriminate.
  - destruct (deleteMessage_comes_back _ fuel messageId Honly (Hres _)
                (fun w => Hpos w _) Hf w Hb) as (o & w' & -> & _).
    discriminate.
  - destruct (getMessage_comes_back _ fuel messageId Honly (Hres _)
                (fun w => Hpos w _) Hf w Hb) as (o & w' & -> & _).
    discriminate.
  - destruct (getMessages_comes_back _ fuel Honly (Hres _)
                (fun w => Hpos w _) Hf w Hb) as (o & w' & -> & _).
    discriminate.
  - destruct (insertMessage_comes_back _ fuel messageId text createdAt
                updatedAt Honly (Hres _) (Hres _) Hpos Hf w Hb)
      as (o & w' & -> & _).
    discriminate.
  - destruct (updateMessage_comes_back _ fuel messageId text Honly (Hres _)
                (fun w => Hpos w _) Hf w Hb) as (o & w' & -> & _).
    discriminate.
  - destruct (getMessageCount_comes_back _ fuel Honly (Hres _)
                (fun w => Hpos w _) Hf w Hb) as (o & w' & -> & _).
    discriminate.
Qed.

Lemma operations_come_back_witness :
  let locked := Some "database is locked" in
  let w := fresh [] 0 (replicate 20 locked) in
  (4 <= 4)%nat
  /\ insertMessage 4 (Integer 7) hello (Integer 1) (Integer 1) w <> None
  /\ getMessageCount 4 w <> None.
Proof.
  intros locked w. split; [lia|].
  destruct (operations_come_back 4 (Integer 7) hello (Integer 1) (Integer 1)
              w) as (_ & _ & _ & _ & Hinsert & _ & Hcount).
  - lia.
  - intros k n. unfold w, fresh. simpl. rewrite lookup_empty. discriminate.
  - split; [exact Hinsert|exact Hcount].
Defined.

(** ** Transient engine conditions *)

Section Transient.
Context {T : Type} (operation : Promise T) (stmt : list Row -> T)
  (key : string).
Hypothesis operation_runs : forall w, operation w = query stmt w.

Lemma attempt_raises msg rest w :
  pending w = Some msg :: rest ->
  operation w = Some (Thrown (mkError msg), set_pending rest w).
Proof.
  intros Hp. rewrite operation_runs. unfold query, andThen, consult.
  rewrite Hp. reflexivity.
Qed.

Lemma attempt_runs w :
  hd None (pending w) = None ->
  operation w
  = Some (Returned (stmt (database w)), set_pending (tl (pending w)) w).
Proof.
  intros Hp. rewrite operation_runs. unfold query, andThen, consult.
  destruct (pending w) as [|[msg|] tail] eqn:E; simpl in *;
    [|discriminate|reflexivity].
  destruct w; simpl in E; subst; reflexivity.
Qed.

(** As many retryable conditions as the budget of the key allows are
    absorbed: the statement then runs. *)
Lemma retry_absorbs msgs :
  forall fuel rest w,
    Forall (fun msg => isRetryableError (mkError msg) = true) msgs ->
    pending w = map Some msgs ++ rest ->
    hd None rest = None ->
    0 <= count key w ->
    count key w + Z.of_nat (length msgs) <= MAX_RETRIES ->
    (length msgs < fuel)%nat ->
    exists w',
      retry fuel operation key w = Some (Returned (stmt (database w)), w')
      /\ database w' = database w
      /\ clock w' = clock w + RETRY_DELAY * Z.of_nat (length msgs)
      /\ pending w' = tl rest
      /\ count key w' = count key w + Z.of_nat (length msgs).
Proof.
  induction msgs as [|msg msgs IH];
    intros fuel rest w Hmsgs Hp Hrest Hpos Hbudget Hfuel;
    (destruct fuel as [|fuel]; [simpl in Hfuel; lia|]).
  - simpl in Hp. exists (set_pending (tl rest) w).
    rewrite <- Hp in Hrest |- *.
    rewrite (retry_returned _ _ _ _ _ _ (attempt_runs w Hrest)).
    unfold count. simpl. repeat split; try reflexivity; lia.
  - inversion Hmsgs as [|? ? Hmsg Hrest_msgs]; subst.
    simpl in Hp, Hbudget, Hfuel.
    pose proof (attempt_raises msg _ w Hp) as Hrun.
    assert (Hsame : count key (set_pending (map Some msgs ++ rest) w)
                    = count key w) by reflexivity.
    rewrite (retry_again _ _ _ _ _ _ Hrun) by (assumption || lia).
    destruct (IH fuel rest (again key (set_pending (map Some msgs ++ rest) w))
                Hrest_msgs eq_refl Hrest) as (w' & -> & Hd & Hc & Hq & Hn).
    + rewrite count_again. lia.
    + rewrite count_again. lia.
    + lia.
    + exists w'. split; [reflexivity|].
      unfold again in Hd, Hc.
      cbn [clock database set_clock set_retryCount set_pending] in Hd, Hc.
      rewrite count_again, Hsame in Hn. cbn [length].
      repeat split; try assumption; lia.
Qed.

(** One retryable condition more than the budget allows: the last one is
    thrown, the counter is removed, the conditions after it stay pending. *)
Lemma retry_exhausts msgs :
  forall fuel rest w,
    Forall (fun msg => isRetryableError (mkError msg) = true) msgs ->
    pending w = map Some msgs ++ rest ->
    0 <= count key w <= MAX_RETRIES ->
    count key w + Z.of_nat (length msgs) = MAX_RETRIES + 1 ->
    (length msgs <= fuel)%nat ->
    exists w',
      retry fuel operation key w
      = Some (Thrown (mkError (List.last msgs "")), w')
      /\ database w' = database w
      /\ clock w' = clock w + RETRY_DELAY * (Z.of_nat (length msgs) - 1)
      /\ pending w' = rest
      /\ retryCount w' !! key = None.
Proof.
  induction msgs as [|msg msgs IH];
    intros fuel rest w Hmsgs Hp Hpos Hbudget Hfuel;
    [simpl in Hbudget; lia|].
  destruct fuel as [|fuel]; [simpl in Hfuel; lia|].
  inversion Hmsgs as [|? ? Hmsg Hrest_msgs]; subst.
  cbn [map app length] in Hp, Hbudget, Hfuel.
  pose proof (attempt_raises msg _ w Hp) as Hrun.
  assert (Hsame : count key (set_pending (map Some msgs ++ rest) w)
                  = count key w) by reflexivity.
  destruct msgs as [|msg2 msgs].
  - exists (clear key (set_pending rest w)).
    rewrite (retry_exhausted _ _ _ _ _ _ Hrun) by (simpl in *; lia).
    cbn [length]. unfold clear.
    cbn [clock database pending set_retryCount set_pending retryCount].
    rewrite lookup_delete_eq. repeat split; try reflexivity; lia.
  - rewrite (retry_again _ _ _ _ _ _ Hrun)
      by (assumption || (cbn [length] in Hbudget; lia)).
    destruct (IH fuel rest (again key (set_pending
                                         (map Some (msg2 :: msgs) ++ rest) w))
                Hrest_msgs eq_refl) as (w' & -> & Hd & Hc & Hq & Hn).
    + rewrite count_again. cbn [length] in Hbudget. lia.
    + rewrite count_again. lia.
    + lia.
    + exists w'. split; [reflexivity|].
      unfold again in Hd, Hc.
      cbn [clock database set_clock set_retryCount set_pending] in Hd, Hc.
      repeat split; try assumption.
      cbn [length] in Hc |- *. lia.
Qed.
End Transient.

(** With a valid identifier, an attempt of [messageExists] or [getMessage]
    is the execution of its one statement. *)
Lemma messageExists_attempt messageId w :
  validateMessageId messageId = None ->
  (check (validateMessageId messageId) ;>
   await found <- query (select_one messageId) ;>
   resolve (bool_decide (found <> None))) w
  = query (fun rows => bool_decide (select_one messageId rows <> None)) w.
Proof.
  intros ->. unfold query, andThen, consult. simpl.
  destruct (pending w) as [|[msg|] rest]; reflexivity.
Qed.

Lemma getMessage_attempt messageId w :
  validateMessageId messageId = None ->
  (check (validateMessageId messageId) ;> query (select_one messageId)) w
  = query (select_one messageId) w.
Proof. intros ->. reflexivity. Qed.

(** X18: retryable engine conditions are absorbed by the reading
    operations as long as the counter of the key leaves room for them
    (three from an absent counter): the call waits [RETRY_DELAY] after each
    one, then its statement runs and it returns the answer of the table. *)
Theorem reads_absorb_transient_conditions fuel messageId msgs rest w :
  validateMessageId messageId = None ->
  Forall (fun msg => isRetryableError (mkError msg) = true) msgs ->
  pending w = map Some msgs ++ rest ->
  hd None rest = None ->
  counters_bounded w ->
  (length msgs < fuel)%nat ->
  let n := Z.of_nat (length msgs) in
  let later w' :=
    database w' = database w /\ clock w' = clock w + RETRY_DELAY * n
    /\ pending w' = tl rest in
  (count ("messageExists_" +:+ toString messageId) w + n <= MAX_RETRIES ->
   exists w',
     messageExists fuel messageId w
     = Some (Returned (bool_decide (select_one messageId (database w)
                                    <> None)), w')
     /\ later w')
  /\ (count ("getMessage_" +:+ toString messageId) w + n <= MAX_RETRIES ->
      exists w',
        getMessage fuel messageId w
        = Some (Returned (select_one messageId (database w)), w')
        /\ later w')
  /\ (count "getMessages" w + n <= MAX_RETRIES ->
      exists w',
        getMessages fuel w = Some (Returned (database w), w') /\ later w')
  /\ (count "getMessageCount" w + n <= MAX_RETRIES ->
      exists w',
        getMessageCount fuel w
        = Some (Returned (Z.of_nat (length (database w))), w')
        /\ later w').
Proof.
  intros Hid Hmsgs Hp Hrest Hb Hfuel n later.
  split; [|split; [|split]]; intros Hroom.
  - destruct (retry_absorbs _ _ ("messageExists_" +:+ toString messageId)
                (fun w0 => messageExists_attempt messageId w0 Hid)
                msgs fuel rest w Hmsgs Hp Hrest (count_bounded _ w Hb)
                Hroom Hfuel) as (w' & Hrun & Hd & Hc & Hq & _).
    exists w'. split; [exact Hrun|]. repeat split; assumption.
  - destruct (retry_absorbs _ _ ("getMessage_" +:+ toString messageId)
                (fun w0 => getMessage_attempt messageId w0 Hid)
                msgs fuel rest w Hmsgs Hp Hrest (count_bounded _ w Hb)
                Hroom Hfuel) as (w' & Hrun & Hd & Hc & Hq & _).
    exists w'. split; [exact Hrun|]. repeat split; assumption.
  - destruct (retry_absorbs (query (fun rows => rows)) (fun rows => rows)
                "getMessages" (fun w0 => eq_refl)
                msgs fuel rest w Hmsgs Hp Hrest (count_bounded _ w Hb)
                Hroom Hfuel) as (w' & Hrun & Hd & Hc & Hq & _).
    exists w'. split; [exact Hrun|]. repeat split; assumption.
  - destruct (retry_absorbs
                (query (fun rows => Z.of_nat (length rows)))
                (fun rows => Z.of_nat (length rows))
                "getMessageCount" (fun w0 => eq_refl)
                msgs fuel rest w Hmsgs Hp Hrest (count_bounded _ w Hb)
                Hroom Hfuel) as (w' & Hrun & Hd & Hc & Hq & _).
    exists w'. split; [exact Hrun|]. repeat split; assumption.
Qed.

Lemma reads_absorb_transient_conditions_witness :
  let w := mkWorld [hello_row] {[ "getMessage_7" := 1 ]} 500
             [Some "SQLITE_BUSY: database is locked";
              Some "engine gave no response"; None; Some "busy"] in
  exists w',
    getMessage 3 (Integer 7) w = Some (Returned (Some hello_row), w')
    /\ database w' = [hello_row]
    /\ clock w' = 500 + RETRY_DELAY * 2
    /\ pending w' = [Some "busy"].
Proof.
  intros w.
  destruct (reads_absorb_transient_conditions 3 (Integer 7)
              ["SQLITE_BUSY: database is locked"; "engine gave no response"]
              [None; Some "busy"] w) as (_ & Hget & _).
  - reflexivity.
  - repeat constructor.
  - reflexivity.
  - reflexivity.
  - intros k n. unfold w. simpl.
    intros [<- <-]%lookup_singleton_Some. unfold MAX_RETRIES. lia.
  - simpl. lia.
  - apply Hget. vm_compute. discriminate.
Defined.

(** X19: one retryable condition more than the counter of the key leaves
    room for (four from an absent counter) makes a reading operation throw
    the last one: the conditions after it stay pending, the table is
    unchanged and the counter of the key is removed. *)
Theorem reads_throw_when_budget_exhausted fuel messageId msgs rest w :
  validateMessageId messageId = None ->
  Forall (fun msg => isRetryableError (mkError msg) = true) msgs ->
  pending w = map Some msgs ++ rest ->
  counters_bounded w ->
  (length msgs <= fuel)%nat ->
  let n := Z.of_nat (length msgs) in
  let e := mkError (List.last msgs "") in
  let later key w' :=
    database w' = database w /\ clock w' = clock w + RETRY_DELAY * (n - 1)
    /\ pending w' = rest /\ retryCount w' !! key = None in
  (count ("messageExists_" +:+ toString messageId) w + n = MAX_RETRIES + 1 ->
   exists w',
     messageExists fuel messageId w = Some (Thrown e, w')
     /\ later ("messageExists_" +:+ toString messageId) w')
  /\ (count ("getMessage_" +:+ toString messageId) w + n = MAX_RETRIES + 1 ->
      exists w',
        getMessage fuel messageId w = Some (Thrown e, w')
        /\ later ("getMessage_" +:+ toString messageId) w')
  /\ (count "getMessages" w + n = MAX_RETRIES + 1 ->
      exists w',
        getMessages fuel w = Some (Thrown e, w') /\ later "getMessages" w')
  /\ (count "getMessageCount" w + n = MAX_RETRIES + 1 ->
      exists w',
        getMessageCount fuel w = Some (Thrown e, w')
        /\ later "getMessageCount" w').
Proof.
  intros Hid Hmsgs Hp Hb Hfuel n e later.
  assert (Hrange : forall key, 0 <= count key w <= MAX_RETRIES).
  { intros key. split; [apply count_bounded, Hb|]. unfold count.
    destruct (retryCount w !! key) as [c|] eqn:Hc; simpl.
    - apply (Hb key c Hc).
    - unfold MAX_RETRIES. lia. }
  split; [|split; [|split]]; intros Hfull.
  - exact (retry_exhausts _ _ ("messageExists_" +:+ toString messageId)
             (fun w0 => messageExists_attempt messageId w0 Hid)
             msgs fuel rest w Hmsgs Hp (Hrange _) Hfull Hfuel).
  - exact (retry_exhausts _ _ ("getMessage_" +:+ toString messageId)
             (fun w0 => getMessage_attempt messageId w0 Hid)
             msgs fuel rest w Hmsgs Hp (Hrange _) Hfull Hfuel).
  - exact (retry_exhausts (query (fun rows => rows)) (fun rows => rows)
             "getMessages" (fun w0 => eq_refl)
             msgs fuel rest w Hmsgs Hp (Hrange _) Hfull Hfuel).
  - exact (retry_exhausts (query (fun rows => Z.of_nat (length rows)))
             (fun rows => Z.of_nat (length rows))
             "getMessageCount" (fun w0 => eq_refl)
             msgs fuel rest w Hmsgs Hp (Hrange _) Hfull Hfuel).
Qed.

Lemma reads_throw_when_budget_exhausted_witness :
  let w := fresh [hello_row] 500
             [Some "busy"; Some "busy"; Some "database is locked";
              Some "still busy"; None] in
  exists w',
    getMessages 4 w = Some (Thrown (mkError "still busy"), w')
    /\ database w' = [hello_row]
    /\ clock w' = 500 + RETRY_DELAY * (4 - 1)
    /\ pending w' = [None]
    /\ retryCount w' !! "getMessages" = None.
Proof.
  intros w.
  destruct (reads_throw_when_budget_exhausted 4 (Integer 7)
              ["busy"; "busy"; "database is locked"; "still busy"]
              [None] w) as (_ & _ & Hlist & _).
  - reflexivity.
  - repeat constructor.
  - reflexivity.
  - intros k n. unfold w, fresh. simpl. rewrite lookup_empty. discriminate.
  - simpl. lia.
  - apply Hlist. reflexivity.
Defined.

(** ** The directory of the database file *)

Lemma lastIndexOf_none s c :
  occurs c s = false -> lastIndexOf s c = -1.
Proof.
  induction s as [|a s IH]; simpl; [reflexivity|].
  intros [Ha Hs]%orb_false_iff. rewrite (IH Hs). simpl.
  rewrite Ascii.eqb_sym, Ha. reflexivity.
Qed.

Lemma lastIndexOf_some s c :
  occurs c s = true ->
  0 <= lastIndexOf s c
  /\ exists name,
      s = substring0 s (lastIndexOf s c) +:+ String c name
      /\ occurs c name = false.
Proof.
  induction s as [|a s IH]; simpl; [discriminate|].
  destruct (occurs c s) eqn:Hs.
  - intros _. destruct (IH eq_refl) as (Hi & name & Hsplit & Hname).
    destruct (Z.leb_spec 0 (lastIndexOf s c)); [|lia].
    split; [lia|]. exists name. split; [|exact Hname].
    unfold substring0 in *.
    replace (Z.to_nat (Z.max 0 (lastIndexOf s c + 1)))
      with (S (Z.to_nat (Z.max 0 (lastIndexOf s c)))) by lia.
    exact (f_equal (String a) Hsplit).
  - rewrite orb_false_r. intros Ha%Ascii.eqb_eq. subst a.
    rewrite (lastIndexOf_none s c Hs). simpl. rewrite Ascii.eqb_refl.
    split; [lia|]. exists s. split; [reflexivity|exact Hs].
Qed.

(** X20: the directory computed by [initDatabase] is the part of the path
    before its last "/": the path is that directory, a "/", and a file name
    without "/"; for a path without any "/" the directory is the empty
    string. *)
Theorem directory_is_path_before_last_slash path :
  let dbDir := substring0 path (lastIndexOf path "/") in
  (occurs "/" path = false -> dbDir = "")
  /\ (occurs "/" path = true ->
      exists name,
        path = dbDir +:+ "/" +:+ name /\ occurs "/" name = false).
Proof.
  intros dbDir. split.
  - intros Hnone. unfold dbDir. rewrite (lastIndexOf_none _ _ Hnone).
    unfold substring0. simpl. destruct path; reflexivity.
  - intros Hsome. destruct (lastIndexOf_some path "/" Hsome)
      as (_ & name & Hsplit & Hname).
    exists name. split; [exact Hsplit|exact Hname].
Qed.

Lemma directory_is_path_before_last_slash_witness :
  (occurs "/" "messages.db" = false
   /\ substring0 "messages.db" (lastIndexOf "messages.db" "/") = "")
  /\ exists name,
      "./database/messages.db"
      = substring0 "./database/messages.db"
          (lastIndexOf "./database/messages.db" "/") +:+ "/" +:+ name
      /\ occurs "/" name = false.
Proof.
  split.
  - split; [reflexivity|].
    apply (directory_is_path_before_last_slash "messages.db"). reflexivity.
  - apply (directory_is_path_before_last_slash "./database/messages.db").
    reflexivity.
Defined.

(** ** Steps of [initDatabase] *)

Lemma next_returned {A B} (m : IO A) (k : A -> IO B) env v env' :
  next m k env = (Returned v, env') ->
  exists x env1, m env = (Returned x, env1) /\ k x env1 = (Returned v, env').
Proof.
  unfold next. destruct (m env) as [[x|e] env1]; [eauto|discriminate].
Qed.

Lemma same_files_refl env : same_files env env.
Proof. repeat split. Qed.

Lemma same_files_trans env env1 env2 :
  same_files env env1 -> same_files env1 env2 -> same_files env env2.
Proof.
  intros (? & ? & ? & ?) (? & ? & ? & ?). repeat split; congruence.
Qed.

Lemma may_raise_same o env env1 :
  may_raise env = (o, env1) -> same_files env env1.
Proof.
  unfold may_raise. destruct (raises env) as [|[msg|] rest];
    intros [= <- <-]; repeat split.
Qed.

Lemma logger_same line env : same_files env (snd (logger line env)).
Proof. repeat split. Qed.

Lemma mkdirSync_returned path env env1 :
  mkdirSync path env = (Returned tt, env1) ->
  MESSAGE_SQLITE_FILE env1 = MESSAGE_SQLITE_FILE env
  /\ texts env1 = texts env
  /\ paths env1 = {[ path ]} ∪ paths env
  /\ executed env1 = executed env.
Proof.
  unfold mkdirSync. case_bool_decide; [discriminate|].
  intros ([] & env0 & Hr & [= <-])%next_returned.
  destruct (may_raise_same _ _ _ Hr) as (? & ? & ? & ?). simpl.
  repeat split; congruence.
Qed.

Lemma new_Database_returned path database env env1 :
  new_Database path env = (Returned database, env1) ->
  database = path
  /\ MESSAGE_SQLITE_FILE env1 = MESSAGE_SQLITE_FILE env
  /\ texts env1 = texts env
  /\ paths env1 = {[ path ]} ∪ paths env
  /\ executed env1 = executed env.
Proof.
  intros ([] & env0 & Hr & [= <- <-])%next_returned.
  destruct (may_raise_same _ _ _ Hr) as (? & ? & ? & ?). simpl.
  repeat split; congruence.
Qed.

Lemma exec_returned database sql env env1 :
  exec database sql env = (Returned tt, env1) ->
  MESSAGE_SQLITE_FILE env1 = MESSAGE_SQLITE_FILE env
  /\ texts env1 = texts env
  /\ paths env1 = paths env
  /\ ran database env1 = ran database env ++ [sql].
Proof.
  intros ([] & env0 & Hr & [= <-])%next_returned.
  destruct (may_raise_same _ _ _ Hr) as (? & ? & ? & Hex). unfold ran. simpl.
  rewrite lookup_insert_eq, Hex. simpl. repeat split; congruence.
Qed.

Lemma exec_outcome database sql o env env1 :
  exec database sql env = (o, env1) ->
  MESSAGE_SQLITE_FILE env1 = MESSAGE_SQLITE_FILE env
  /\ texts env1 = texts env
  /\ paths env1 = paths env.
Proof.
  unfold exec, next. destruct (may_raise env) as [[[]|e] env0] eqn:Hr;
    intros [= <- <-]; destruct (may_raise_same _ _ _ Hr) as (? & ? & ? & ?);
    simpl; repeat split; congruence.
Qed.

Lemma readFileSync_outcome path o env env1 :
  readFileSync path env = (o, env1) ->
  same_files env env1
  /\ (forall text, o = Returned text -> texts env !! path = Some text).
Proof.
  unfold readFileSync, next.
  destruct (may_raise env) as [[[]|e] env0] eqn:Hr.
  - destruct (may_raise_same _ _ _ Hr) as (? & Ht & ? & ?).
    destruct (texts env0 !! path) as [text|] eqn:Hp; intros [= <- <-].
    + split; [repeat split; assumption|]. intros ? [= <-]. congruence.
    + split; [repeat split; assumption|]. discriminate.
  - intros [= <- <-]. split; [exact (may_raise_same _ _ _ Hr)|discriminate].
Qed.

Lemma in_transaction_returned {T} database (body : IO T) v env env1 :
  in_transaction database body env = (Returned v, env1) ->
  body env = (Returned v, env1).
Proof.
  unfold in_transaction. destruct (body env) as [[x|e] env0];
    [auto|discriminate].
Qed.

Lemma dbPath_not_empty env : dbPath env <> "".
Proof.
  unfold dbPath. destruct (MESSAGE_SQLITE_FILE env) as [path|];
    [|discriminate]. case_bool_decide; [discriminate|assumption].
Qed.

Lemma length_append_string s t :
  String.length (s +:+ t) = (String.length s + String.length t)%nat.
Proof. induction s as [|a s IH]; simpl; [reflexivity|]. rewrite IH. reflexivity. Qed.

Lemma existsSync_dbPath env env0 :
  existsSync (dbPath env) env0
  = (Returned (bool_decide (dbPath env ∈ paths env0)), env0).
Proof.
  unfold existsSync.
  rewrite (bool_decide_eq_false_2 _ (dbPath_not_empty env)). reflexivity.
Qed.

(** The directory of a path is never the path itself. *)
Lemma directory_differs path :
  path <> "" -> substring0 path (lastIndexOf path "/") <> path.
Proof.
  intros Hne Heq. destruct (occurs "/" path) eqn:Hocc.
  - destruct (lastIndexOf_some path "/" Hocc) as (_ & name & Hsplit & _).
    rewrite Heq in Hsplit. apply (f_equal String.length) in Hsplit.
    rewrite length_append_string in Hsplit. simpl in Hsplit. lia.
  - rewrite (lastIndexOf_none _ _ Hocc) in Heq. unfold substring0 in Heq.
    simpl in Heq. destruct path; [contradiction|discriminate].
Qed.

(** ** What [initDatabase] does *)

Lemma initDatabase_returned env h env' :
  initDatabase env = (Returned h, env') ->
  h = dbPath env
  /\ MESSAGE_SQLITE_FILE env' = MESSAGE_SQLITE_FILE env
  /\ texts env' = texts env
  /\ paths env ⊆ paths env'
  /\ h ∈ paths env'
  /\ (h ∈ paths env ->
      ran h env'
      = ran h env ++ ["PRAGMA foreign_keys = ON;"; "PRAGMA journal_mode = WAL;"])
  /\ (h ∉ paths env ->
      exists script,
        texts env !! "./database/init.sql" = Some script
        /\ ran h env'
           = ran h env ++ ["PRAGMA foreign_keys = ON;";
                           "PRAGMA journal_mode = WAL;"; script]).
Proof.
  unfold initDatabase. intros ([] & env0 & [= <-] & H)%next_returned.
  cbv beta zeta in H. unfold try_catch in H.
  match type of H with
  | match ?body with _ => _ end = _ =>
      destruct body as [[v|e] env1] eqn:Hbody; [|discriminate]
  end.
  injection H as -> ->.
  change (dbPath _) with (dbPath env) in Hbody.
  apply next_returned in Hbody as (dirExists & envA & [= <- <-] & Hbody).
  apply next_returned in Hbody as ([] & envB & Hmk & Hbody).
  assert (HB : MESSAGE_SQLITE_FILE envB = MESSAGE_SQLITE_FILE env
               /\ texts envB = texts env
               /\ executed envB = executed env
               /\ paths env ⊆ paths envB
               /\ (dbPath env ∈ paths envB <-> dbPath env ∈ paths env)).
  { destruct (negb _) in Hmk.
    - apply mkdirSync_returned in Hmk as (Hv & Ht & Hp & He).
      simpl in Hv, Ht, Hp, He.
      split; [congruence|]. split; [congruence|]. split; [congruence|].
      rewrite Hp. split; [apply union_subseteq_r|].
      split; [|apply elem_of_union_r].
      intros [Hd%elem_of_singleton|?]%elem_of_union; [|assumption].
      destruct (directory_differs (dbPath env) (dbPath_not_empty env)).
      symmetry. exact Hd.
    - injection Hmk as <-. simpl. repeat split; auto. }
  destruct HB as (HvarB & HtextB & HexecB & HsubB & HinB).
  apply next_returned in Hbody as (fileExists & envB' & Hfound & Hbody).
  rewrite existsSync_dbPath in Hfound. injection Hfound as <- <-.
  apply next_returned in Hbody as (database & envC & Hopen & Hbody).
  apply new_Database_returned in Hopen as (-> & HvarC & HtextC & HpC & HexecC).
  apply next_returned in Hbody as ([] & envD & Hp1 & Hbody).
  apply exec_returned in Hp1 as (HvarD & HtextD & HpD & HranD).
  apply next_returned in Hbody as ([] & envE & Hp2 & Hbody).
  apply exec_returned in Hp2 as (HvarE & HtextE & HpE & HranE).
  apply next_returned in Hbody as ([] & envF & Hboot & Hbody).
  apply next_returned in Hbody as ([] & envG & [= <-] & [= <- <-]).
  assert (HranC : ran (dbPath env) envC = ran (dbPath env) env)
    by (unfold ran; congruence).
  assert (HF : MESSAGE_SQLITE_FILE envF = MESSAGE_SQLITE_FILE env
               /\ texts envF = texts env /\ paths envF = paths envE
               /\ (dbPath env ∈ paths env -> ran (dbPath env) envF
                                             = ran (dbPath env) envE)
               /\ (dbPath env ∉ paths env ->
                   exists script,
                     texts env !! "./database/init.sql" = Some script
                     /\ ran (dbPath env) envF
                        = ran (dbPath env) envE ++ [script])).
  { case_bool_decide as Hfile; simpl in Hboot.
    - injection Hboot as <-. repeat split; try congruence.
      intros Hnew. apply HinB in Hfile. contradiction.
    - apply next_returned in Hboot as (script & envR & Hread & Hboot).
      apply in_transaction_returned, exec_returned in Hboot
        as (HvarF & HtextF & HpF & HranF).
      destruct (readFileSync_outcome _ _ _ _ Hread)
        as ((HvarR & HtextR & HpR & HexecR) & Hscript).
      specialize (Hscript script eq_refl).
      repeat split; try congruence.
      + intros Hold. apply HinB in Hold. contradiction.
      + intros _. exists script. split; [congruence|].
        rewrite HranF. unfold ran. rewrite HexecR. reflexivity. }
  destruct HF as (HvarF & HtextF & HpF & Hold & Hnew).
  simpl. split; [reflexivity|]. split; [exact HvarF|]. split; [exact HtextF|].
  rewrite HpF, HpE, HpD, HpC.
  split; [etrans; [exact HsubB|apply union_subseteq_r]|].
  split; [apply elem_of_union_l, elem_of_singleton; reflexivity|].
  unfold ran in *. simpl. split.
  - intros Hin. rewrite (Hold Hin), HranE, HranD, HranC, <- !app_assoc.
    reflexivity.
  - intros Hnin. destruct (Hnew Hnin) as (script & Hs & Hr).
    exists script. split; [exact Hs|].
    rewrite Hr, HranE, HranD, HranC, <- !app_assoc. reflexivity.
Qed.

Lemma initDatabase_thrown env e env' :
  initDatabase env = (Thrown e, env') ->
  exists cause,
    e = mkError ("Failed to initialize database: " +:+ cause)
    /\ List.last (logged env') ""
       = "Database initialization failed: " +:+ cause.
Proof.
  unfold initDatabase, next. simpl. unfold try_catch.
  match goal with
  | |- match ?body with _ => _ end = _ -> _ =>
      destruct body as [[v|e0] env1]; [discriminate|]
  end.
  unfold logger, fail. simpl. intros [= <- <-].
  exists (message e0). split; [reflexivity|]. simpl. apply last_last.
Qed.

(** X21: when [initDatabase] returns, the handle is the one of the
    configured path (the default path when the setting is absent or empty),
    the file exists, and the database has run the two pragmas, followed by
    the schema script exactly when the file did not exist before the call. *)
Theorem database_opened_and_bootstrapped env h env' :
  initDatabase env = (Returned h, env') ->
  h = dbPath env
  /\ h ∈ paths env'
  /\ exists tail,
      ran h env'
      = ran h env ++ ["PRAGMA foreign_keys = ON;"; "PRAGMA journal_mode = WAL;"]
        ++ tail
      /\ (h ∈ paths env -> tail = [])
      /\ (h ∉ paths env ->
          exists script,
            texts env !! "./database/init.sql" = Some script
            /\ tail = [script]).
Proof.
  intros (Hh & _ & _ & _ & Hfile & Hold & Hnew)%initDatabase_returned.
  split; [exact Hh|]. split; [exact Hfile|].
  destruct (decide (h ∈ paths env)) as [Hin|Hnin].
  - exists []. split; [rewrite (Hold Hin); reflexivity|].
    split; [reflexivity|]. intros Hnin. contradiction.
  - destruct (Hnew Hnin) as (script & Hs & Hr). exists [script].
    split; [rewrite Hr; reflexivity|].
    split; [intros Hin; contradiction|]. intros _. eauto.
Qed.

Lemma database_opened_and_bootstrapped_witness :
  let env := mkEnv (Some "") ∅
               {[ "./database/init.sql" := "CREATE TABLE messages (...);" ]}
               ∅ [] [] in
  let h := "./database/messages.db" in
  exists env',
    initDatabase env = (Returned h, env')
    /\ h = dbPath env
    /\ h ∈ paths env'
    /\ exists tail,
        ran h env'
        = ran h env ++ ["PRAGMA foreign_keys = ON;";
                        "PRAGMA journal_mode = WAL;"] ++ tail
        /\ (h ∈ paths env -> tail = [])
        /\ (h ∉ paths env ->
            exists script,
              texts env !! "./database/init.sql" = Some script
              /\ tail = [script]).
Proof.
  intros env h.
  destruct (initDatabase env) as [o env'] eqn:Hrun.
  assert (Ho : o = Returned h).
  { apply (f_equal fst) in Hrun. simpl in Hrun. rewrite <- Hrun.
    vm_compute. reflexivity. }
  subst o. exists env'. split; [reflexivity|].
  exact (database_opened_and_bootstrapped env h env' Hrun).
Defined.

(** X22: whatever fails inside [initDatabase] (creating the directory,
    opening the file, a pragma, reading or running the schema script), the
    error that comes out is a new one whose message is "Failed to
    initialize database: " followed by the message of the cause, and the
    last line logged is "Database initialization failed: " with the same
    cause. *)
Theorem initialisation_errors_are_wrapped env e env' :
  initDatabase env = (Thrown e, env') ->
  exists cause,
    message e = "Failed to initialize database: " +:+ cause
    /\ List.last (logged env') ""
       = "Database initialization failed: " +:+ cause.
Proof.
  intros (cause & -> & Hlog)%initDatabase_thrown.
  exists cause. split; [reflexivity|exact Hlog].
Qed.

Lemma initialisation_errors_are_wrapped_witness :
  let env := mkEnv None {[ "./database" ]} ∅ ∅
               [None; Some "database is locked"] [] in
  exists env' cause,
    initDatabase env
    = (Thrown (mkError "Failed to initialize database: database is locked"),
       env')
    /\ message (mkError "Failed to initialize database: database is locked")
       = "Failed to initialize database: " +:+ cause
    /\ List.last (logged env') ""
       = "Database initialization failed: " +:+ cause.
Proof.
  intros env.
  destruct (initDatabase env) as [o env'] eqn:Hrun.
  assert (Ho : o = Thrown (mkError
                 "Failed to initialize database: database is locked")).
  { apply (f_equal fst) in Hrun. simpl in Hrun. rewrite <- Hrun.
    vm_compute. reflexivity. }
  subst o.
  destruct (initialisation_errors_are_wrapped env _ env' Hrun)
    as (cause & Hc & Hl).
  exists env', cause. split; [reflexivity|]. split; [exact Hc|exact Hl].
Defined.

Lemma may_raise_quiet env : raises env = [] -> may_raise env = (Returned tt, env).
Proof. unfold may_raise. intros ->. reflexivity. Qed.

Lemma next_done {A B} (m : IO A) (k : A -> IO B) env x env1 :
  m env = (Returned x, env1) -> next m k env = k x env1.
Proof. unfold next. intros ->. reflexivity. Qed.

Lemma next_fail {A B} (m : IO A) (k : A -> IO B) env e env1 :
  m env = (Thrown e, env1) -> next m k env = (Thrown e, env1).
Proof. unfold next. intros ->. reflexivity. Qed.

Lemma mkdirSync_quiet path env :
  path <> "" ->
  raises env = [] ->
  mkdirSync path env
  = (Returned tt,
     mkEnv (MESSAGE_SQLITE_FILE env) ({[ path ]} ∪ paths env) (texts env)
           (executed env) (raises env) (logged env)).
Proof.
  intros Hpath Hq. unfold mkdirSync.
  rewrite (bool_decide_eq_false_2 _ Hpath).
  rewrite (next_done _ _ _ _ _ (may_raise_quiet _ Hq)).
  reflexivity.
Qed.

Lemma new_Database_quiet path env :
  raises env = [] ->
  new_Database path env
  = (Returned path,
     mkEnv (MESSAGE_SQLITE_FILE env) ({[ path ]} ∪ paths env) (texts env)
           (executed env) (raises env) (logged env)).
Proof.
  intros Hq. unfold new_Database.
  rewrite (next_done _ _ _ _ _ (may_raise_quiet _ Hq)). reflexivity.
Qed.

Lemma exec_quiet database sql env :
  raises env = [] ->
  exec database sql env
  = (Returned tt,
     mkEnv (MESSAGE_SQLITE_FILE env) (paths env) (texts env)
           (<[database := ran database env ++ [sql]]> (executed env))
           (raises env) (logged env)).
Proof.
  intros Hq. unfold exec.
  rewrite (next_done _ _ _ _ _ (may_raise_quiet _ Hq)). reflexivity.
Qed.

Lemma readFileSync_missing path env :
  raises env = [] -> texts env !! path = None ->
  readFileSync path env
  = (Thrown (mkError ("ENOENT: no such file or directory, open '"
                      +:+ path +:+ "'")), env).
Proof.
  intros Hq Hp. unfold readFileSync.
  rewrite (next_done _ _ _ _ _ (may_raise_quiet _ Hq)). rewrite Hp.
  reflexivity.
Qed.

(** X23: a bootstrap that fails is never repeated.  When the path of the
    database has a directory part, the database file does not exist and the
    schema script cannot be read, [initDatabase] throws the wrapped ENOENT
    error, but the database file has been created and the pragmas have run;
    any later [initDatabase] for the same path that returns therefore runs
    the two pragmas only, never the schema script. *)
Theorem failed_bootstrap_is_never_repeated env :
  substring0 (dbPath env) (lastIndexOf (dbPath env) "/") <> "" ->
  dbPath env ∉ paths env ->
  texts env !! "./database/init.sql" = None ->
  raises env = [] ->
  exists env1,
    initDatabase env
    = (Thrown (mkError ("Failed to initialize database: "
                        +:+ "ENOENT: no such file or directory, open '"
                        +:+ "./database/init.sql" +:+ "'")), env1)
    /\ dbPath env ∈ paths env1
    /\ ran (dbPath env) env1
       = ran (dbPath env) env ++ ["PRAGMA foreign_keys = ON;";
                                  "PRAGMA journal_mode = WAL;"]
    /\ forall env2 h env3,
        MESSAGE_SQLITE_FILE env2 = MESSAGE_SQLITE_FILE env ->
        paths env1 ⊆ paths env2 ->
        initDatabase env2 = (Returned h, env3) ->
        ran h env3
        = ran h env2 ++ ["PRAGMA foreign_keys = ON;";
                         "PRAGMA journal_mode = WAL;"].
Proof.
  intros Hdirectory Hnew Hscript Hquiet.
  assert (Hlater : forall env1,
             dbPath env ∈ paths env1 ->
             forall env2 h env3,
               MESSAGE_SQLITE_FILE env2 = MESSAGE_SQLITE_FILE env ->
               paths env1 ⊆ paths env2 ->
               initDatabase env2 = (Returned h, env3) ->
               ran h env3
               = ran h env2 ++ ["PRAGMA foreign_keys = ON;";
                                "PRAGMA journal_mode = WAL;"]).
  { intros env1 Hfile env2 h env3 Hvar Hsub Hrun.
    apply initDatabase_returned in Hrun as (Hh & _ & _ & _ & _ & Hold & _).
    apply Hold. rewrite Hh. unfold dbPath. rewrite Hvar.
    apply Hsub. exact Hfile. }
  set (path := dbPath env) in *.
  set (dbDir := substring0 path (lastIndexOf path "/")).
  assert (Hdir : dbDir <> path)
    by (apply directory_differs, dbPath_not_empty).
  unfold initDatabase.
  rewrite (next_done (logger "Initializing database...") _ env tt _ eq_refl).
  cbv beta zeta.
  change (dbPath (mkEnv _ _ _ _ _ _)) with path. fold dbDir.
  unfold try_catch.
  erewrite next_done by reflexivity.
  set (env0 := snd (logger "Initializing database..." env)).
  rewrite (bool_decide_eq_false_2 (dbDir = "") Hdirectory).
  cbn [negb andb].
  assert (HB : exists envB,
             (if negb (bool_decide (dbDir ∈ paths env0))
              then mkdirSync dbDir else done_ tt) env0 = (Returned tt, envB)
             /\ raises envB = [] /\ (path ∉ paths envB)
             /\ texts envB = texts env /\ executed envB = executed env).
  { destruct (bool_decide (dbDir ∈ paths env0)); simpl.
    - exists env0. repeat split; assumption.
    - eexists. split; [apply mkdirSync_quiet; [exact Hdirectory|exact Hquiet]|].
      repeat split; try assumption. simpl.
      intros [Hd%elem_of_singleton|?]%elem_of_union; [|contradiction].
      apply Hdir. symmetry. exact Hd. }
  destruct HB as (envB & HrunB & HquietB & HnewB & HtextB & HexecB).
  rewrite (next_done _ _ _ _ _ HrunB).
  erewrite next_done by (apply (existsSync_dbPath env)).
  rewrite (bool_decide_eq_false_2 _ HnewB).
  erewrite next_done by (apply new_Database_quiet; exact HquietB).
  erewrite next_done by (apply exec_quiet; exact HquietB).
  erewrite next_done by (apply exec_quiet; exact HquietB).
  erewrite next_fail.
  2: { simpl negb. cbv iota. apply next_fail.
       apply readFileSync_missing; [exact HquietB|].
       simpl. rewrite HtextB. exact Hscript. }
  eexists. split; [reflexivity|]. split; [|split].
  - simpl. apply elem_of_union_l, elem_of_singleton. reflexivity.
  - unfold ran. simpl. rewrite !lookup_insert_eq, HexecB. simpl.
    rewrite <- app_assoc. reflexivity.
  - apply Hlater. simpl. apply elem_of_union_l, elem_of_singleton.
    reflexivity.
Qed.

Lemma failed_bootstrap_is_never_repeated_witness :
  let env := mkEnv None ∅ ∅ ∅ [] [] in
  let path := "./database/messages.db" in
  exists env1,
    initDatabase env
    = (Thrown (mkError ("Failed to initialize database: "
                        +:+ "ENOENT: no such file or directory, open '"
                        +:+ "./database/init.sql" +:+ "'")), env1)
    /\ path ∈ paths env1
    /\ ran path env1 = ran path env ++ ["PRAGMA foreign_keys = ON;";
                                        "PRAGMA journal_mode = WAL;"]
    /\ forall env2 h env3,
        MESSAGE_SQLITE_FILE env2 = MESSAGE_SQLITE_FILE env ->
        paths env1 ⊆ paths env2 ->
        initDatabase env2 = (Returned h, env3) ->
        ran h env3
        = ran h env2 ++ ["PRAGMA foreign_keys = ON;";
                         "PRAGMA journal_mode = WAL;"].
Proof.
  intros env path.
  apply (failed_bootstrap_is_never_repeated env).
  - discriminate.
  - apply not_elem_of_empty.
  - apply lookup_empty.
  - reflexivity.
Defined.

Lemma substring0_nothing s stop : stop <= 0 -> substring0 s stop = "".
Proof.
  intros Hstop. unfold substring0.
  replace (Z.to_nat (Z.max 0 stop)) with 0%nat by lia.
  destruct s; reflexivity.
Qed.

(** X30: a database path without a directory part (no "/" at all, or only
    a leading one, as in "messages.db" and "/messages.db") can never be
    initialised: the directory computed for it is the empty string, which
    does not exist and cannot be created, so [initDatabase] throws before
    opening anything, whatever the state of the file system. *)
Theorem path_without_directory_is_refused env :
  lastIndexOf (dbPath env) "/" <= 0 ->
  exists e env1,
    initDatabase env = (Thrown e, env1)
    /\ paths env1 = paths env
    /\ texts env1 = texts env
    /\ executed env1 = executed env
    /\ raises env1 = raises env.
Proof.
  intros Hslash. unfold initDatabase.
  rewrite (next_done (logger "Initializing database...") _ env tt _ eq_refl).
  cbv beta zeta.
  change (dbPath (mkEnv _ _ _ _ _ _)) with (dbPath env).
  rewrite (substring0_nothing _ _ Hslash).
  unfold try_catch.
  erewrite next_done by reflexivity.
  erewrite next_fail by reflexivity.
  do 2 eexists. split; [reflexivity|]. repeat split.
Qed.

Lemma path_without_directory_is_refused_witness :
  let env := mkEnv (Some "messages.db") {[ "messages.db" ]} ∅ ∅ [] [] in
  lastIndexOf "/messages.db" "/" <= 0
  /\ exists e env1,
      initDatabase env = (Thrown e, env1)
      /\ paths env1 = paths env
      /\ texts env1 = texts env
      /\ executed env1 = executed env
      /\ raises env1 = raises env.
Proof.
  intros env. split; [vm_compute; discriminate|].
  apply (path_without_directory_is_refused env). vm_compute. discriminate.
Defined.

(** ** The singleton and the exported functions *)

(** X24: once [getMessageManager] has returned a manager, every later call
    returns that same manager, leaves the globals as they are and does not
    run [initDatabase] again (the environment is untouched); and from fresh
    globals the manager is bound to the handle [initDatabase] returned. *)
Theorem manager_is_created_once g env m g1 env1 :
  getMessageManager g env = (Returned m, (g1, env1)) ->
  (forall env2, getMessageManager g1 env2 = (Returned m, (g1, env2)))
  /\ (instance g = None -> messageManagerInstance g = None ->
      databaseInstance g = None ->
      initDatabase env = (Returned (this_database m), env1)).
Proof.
  unfold getMessageManager, getInstance.
  destruct g as [inst mgr db]. simpl.
  destruct mgr as [m0|].
  - intros [= <- <- <-]. split; [reflexivity|discriminate].
  - destruct db as [d|].
    + destruct inst as [m0|]; simpl; intros [= <- <- <-];
        (split; [reflexivity|discriminate]).
    + destruct (initDatabase env) as [[d|e] env'] eqn:Hinit;
        [|discriminate].
      destruct inst as [m0|]; simpl; intros [= <- <- <-];
        (split; [reflexivity|]); [discriminate|reflexivity].
Qed.

Lemma manager_is_created_once_witness :
  let g := mkGlobals None None None in
  let env := mkEnv None ∅ {[ "./database/init.sql" := "CREATE TABLE t(x);" ]}
               ∅ [] [] in
  exists m g1 env1,
    getMessageManager g env = (Returned m, (g1, env1))
    /\ this_database m = "./database/messages.db"
    /\ forall env2, getMessageManager g1 env2 = (Returned m, (g1, env2)).
Proof.
  intros g env.
  destruct (getMessageManager g env) as [o [g1 env1]] eqn:Hrun.
  assert (Ho : o = Returned (mkManager "./database/messages.db")).
  { apply (f_equal fst) in Hrun. simpl in Hrun. rewrite <- Hrun.
    vm_compute. reflexivity. }
  subst o. exists (mkManager "./database/messages.db"), g1, env1.
  split; [reflexivity|]. split; [reflexivity|].
  exact (proj1 (manager_is_created_once g env _ g1 env1 Hrun)).
Defined.

(** X25: when [getMessageManager] throws, the error is the wrapped error of
    [initDatabase], nothing is remembered in the globals, and the next call
    runs [initDatabase] again. *)
Theorem failed_initialisation_is_not_remembered g env e g1 env1 :
  getMessageManager g env = (Thrown e, (g1, env1)) ->
  g1 = g
  /\ initDatabase env = (Thrown e, env1)
  /\ (exists cause, message e = "Failed to initialize database: " +:+ cause)
  /\ forall env2,
      getMessageManager g1 env2
      = match initDatabase env2 with
        | (Returned database, env3) =>
            let '(m, g2) :=
              getInstance database
                (mkGlobals (instance g) None (Some database)) in
            (Returned m, (mkGlobals (instance g2) (Some m) (Some database),
                          env3))
        | (Thrown e2, env3) => (Thrown e2, (g, env3))
        end.
Proof.
  unfold getMessageManager.
  destruct g as [inst mgr db]. simpl.
  destruct mgr as [m0|]; [discriminate|].
  destruct db as [d|].
  { unfold getInstance. destruct inst; discriminate. }
  destruct (initDatabase env) as [[d|e0] env'] eqn:Hinit.
  { unfold getInstance. destruct inst; discriminate. }
  intros [= <- <- <-]. split; [reflexivity|]. split; [reflexivity|].
  split.
  - destruct (initDatabase_thrown env e0 env' Hinit) as (cause & -> & _).
    exists cause. reflexivity.
  - intros env2. destruct (initDatabase env2) as [[d|e2] env3];
      [|reflexivity].
    unfold getInstance. simpl. destruct inst; reflexivity.
Qed.

Lemma failed_initialisation_is_not_remembered_witness :
  let g := mkGlobals None None None in
  let env := mkEnv (Some "/var/data/cache.db") ∅ ∅ ∅ [Some "EACCES"] [] in
  let e := mkError "Failed to initialize database: EACCES" in
  exists env1,
    getMessageManager g env = (Thrown e, (g, env1))
    /\ initDatabase env = (Thrown e, env1).
Proof.
  intros g env e.
  destruct (getMessageManager g env) as [o [g1 env1]] eqn:Hrun.
  assert (Ho : o = Thrown e).
  { apply (f_equal fst) in Hrun. simpl in Hrun. rewrite <- Hrun.
    vm_compute. reflexivity. }
  subst o.
  destruct (failed_initialisation_is_not_remembered g env e g1 env1 Hrun)
    as (-> & Hinit & _).
  exists env1. split; [reflexivity|exact Hinit].
Defined.

(** X26: the first handle wins.  A second [getInstance] returns the manager
    of the first handle; and when the class already holds an instance,
    [getMessageManager] still opens a database with [initDatabase] and keeps
    its handle in [databaseInstance], but the manager it returns is the
    existing one, bound to the earlier handle. *)
Theorem first_handle_wins g env m0 h env1 :
  instance g = Some m0 ->
  messageManagerInstance g = None ->
  databaseInstance g = None ->
  initDatabase env = (Returned h, env1) ->
  getMessageManager g env
  = (Returned m0, (mkGlobals (Some m0) (Some m0) (Some h), env1))
  /\ forall other, fst (getInstance other g) = m0.
Proof.
  destruct g as [inst mgr db]. simpl. intros -> -> -> Hinit.
  unfold getMessageManager, getInstance. simpl. rewrite Hinit. simpl.
  split; reflexivity.
Qed.

Lemma first_handle_wins_witness :
  let g0 := mkGlobals None None None in
  let g := snd (getInstance "/tmp/first.db" g0) in
  let env := mkEnv None {[ "./database/messages.db" ]} ∅ ∅ [] [] in
  exists env1,
    initDatabase env = (Returned "./database/messages.db", env1)
    /\ getMessageManager g env
       = (Returned (mkManager "/tmp/first.db"),
          (mkGlobals (Some (mkManager "/tmp/first.db"))
                     (Some (mkManager "/tmp/first.db"))
                     (Some "./database/messages.db"), env1))
    /\ fst (getInstance "/tmp/second.db" g) = mkManager "/tmp/first.db".
Proof.
  intros g0 g env.
  destruct (initDatabase env) as [o env1] eqn:Hinit.
  assert (Ho : o = Returned "./database/messages.db").
  { apply (f_equal fst) in Hinit. simpl in Hinit. rewrite <- Hinit.
    vm_compute. reflexivity. }
  subst o. exists env1. split; [reflexivity|].
  destruct (first_handle_wins g env (mkManager "/tmp/first.db")
              "./database/messages.db" env1 eq_refl eq_refl eq_refl Hinit)
    as [Hget Hother].
  split; [exact Hget|exact (Hother "/tmp/second.db")].
Defined.

(** X27: when the database cannot be initialised, every exported function
    throws the wrapped error of [initDatabase] and its operation is not
    run: the world of the manager is untouched and nothing is retried,
    whatever the message of the error. *)
Theorem exported_functions_need_the_database fuel messageId text createdAt
    updatedAt g env w e env1 :
  messageManagerInstance g = None ->
  databaseInstance g = None ->
  initDatabase env = (Thrown e, env1) ->
  Exported.getMessages fuel (g, env, w) = Some (Thrown e, (g, env1, w))
  /\ Exported.insertMessage fuel messageId text createdAt updatedAt
       (g, env, w) = Some (Thrown e, (g, env1, w))
  /\ Exported.deleteMessage fuel messageId (g, env, w)
     = Some (Thrown e, (g, env1, w))
  /\ Exported.getMessage fuel messageId (g, env, w)
     = Some (Thrown e, (g, env1, w))
  /\ Exported.updateMessage fuel messageId text (g, env, w)
     = Some (Thrown e, (g, env1, w))
  /\ Exported.getMessageCount fuel (g, env, w)
     = Some (Thrown e, (g, env1, w))
  /\ Exported.messageExists fuel messageId (g, env, w)
     = Some (Thrown e, (g, env1, w)).
Proof.
  intros Hm Hd Hinit.
  assert (H : getMessageManager g env = (Thrown e, (g, env1))).
  { unfold getMessageManager. rewrite Hm, Hd, Hinit. reflexivity. }
  unfold Exported.getMessages, Exported.insertMessage,
    Exported.deleteMessage, Exported.getMessage, Exported.updateMessage,
    Exported.getMessageCount, Exported.messageExists, with_manager.
  rewrite H. repeat split.
Qed.

Lemma exported_functions_need_the_database_witness :
  let g := mkGlobals None None None in
  let env := mkEnv None ∅ ∅ ∅ [None; Some "database is locked"] [] in
  let w := fresh [hello_row] 0 [] in
  let e := mkError "Failed to initialize database: database is locked" in
  isRetryableError e = true
  /\ exists env1,
      Exported.getMessageCount 4 (g, env, w) = Some (Thrown e, (g, env1, w)).
Proof.
  intros g env w e. split; [reflexivity|].
  destruct (initDatabase env) as [o env1] eqn:Hinit.
  assert (Ho : o = Thrown e).
  { apply (f_equal fst) in Hinit. simpl in Hinit. rewrite <- Hinit.
    vm_compute. reflexivity. }
  subst o. exists env1.
  destruct (exported_functions_need_the_database 4 (Integer 1) []
              (Integer 1) (Integer 1) g env w e env1 eq_refl eq_refl Hinit)
    as (_ & _ & _ & _ & _ & Hcount & _).
  exact Hcount.
Defined.

(** X28: once the manager exists, every exported function is the method of
    the manager: it has the outcome of the method and leaves the world the
    method leaves, and neither the globals nor the environment change. *)
Theorem exported_functions_call_the_manager fuel messageId text createdAt
    updatedAt g env w m :
  messageManagerInstance g = Some m ->
  let lift {T} (r : option (Outcome T * World)) :=
    (fun '(o, w') => (o, (g, env, w'))) <$> r in
  Exported.getMessages fuel (g, env, w) = lift (getMessages fuel w)
  /\ Exported.insertMessage fuel messageId text createdAt updatedAt
       (g, env, w)
     = lift (insertMessage fuel messageId text createdAt updatedAt w)
  /\ Exported.deleteMessage fuel messageId (g, env, w)
     = lift (deleteMessage fuel messageId w)
  /\ Exported.getMessage fuel messageId (g, env, w)
     = lift (getMessage fuel messageId w)
  /\ Exported.updateMessage fuel messageId text (g, env, w)
     = lift (updateMessage fuel messageId text w)
  /\ Exported.getMessageCount fuel (g, env, w)
     = lift (getMessageCount fuel w)
  /\ Exported.messageExists fuel messageId (g, env, w)
     = lift (messageExists fuel messageId w).
Proof.
  intros Hm lift.
  assert (H : getMessageManager g env = (Returned m, (g, env))).
  { unfold getMessageManager. rewrite Hm. reflexivity. }
  unfold Exported.getMessages, Exported.insertMessage,
    Exported.deleteMessage, Exported.getMessage, Exported.updateMessage,
    Exported.getMessageCount, Exported.messageExists, with_manager, lift.
  rewrite H.
  repeat split;
    match goal with
    | |- match ?call with _ => _ end = _ =>
        destruct call as [[o w']|]; reflexivity
    end.
Qed.

Lemma exported_functions_call_the_manager_witness :
  let m := mkManager "./database/messages.db" in
  let g := mkGlobals (Some m) (Some m) (Some "./database/messages.db") in
  let env := mkEnv None {[ "./database/messages.db" ]} ∅ ∅ [] [] in
  let w := fresh [hello_row] 0 [] in
  Exported.getMessage 1 (Integer 7) (g, env, w)
  = Some (Returned (Some hello_row), (g, env, w)).
Proof.
  intros m g env w.
  destruct (exported_functions_call_the_manager 1 (Integer 7) [] (Integer 1)
              (Integer 1) g env w m eq_refl) as (_ & _ & _ & Hget & _).
  rewrite Hget. reflexivity.
Defined.

(** ** Which contents pass the check *)

Lemma byteLength_bounds n :
  forall s, (length s <= n)%nat ->
            Z.of_nat (length s) <= byteLength s <= 3 * Z.of_nat (length s).
Proof.
  induction n as [|n IH]; intros s Hn.
  - destruct s; simpl in *; lia.
  - destruct s as [|u s]; [simpl; lia|].
    assert (Hs : (length s <= n)%nat) by (simpl in Hn; lia).
    pose proof (IH s Hs) as Htail.
    cbn [byteLength length].
    destruct (u <? 128)%N; [lia|]. destruct (u <? 2048)%N; [lia|].
    destruct (isHighSurrogate u); [|lia].
    destruct s as [|l s']; [simpl; lia|].
    destruct (isLowSurrogate l); [|lia].
    assert (Hs' : (length s' <= n)%nat) by (simpl in Hs; lia).
    pose proof (IH s' Hs'). cbn [length] in *. lia.
Qed.

Lemma byteLength_ascii s :
  Forall (fun u => (u < 128)%N) s -> byteLength s = Z.of_nat (length s).
Proof.
  induction 1 as [|u s Hu _ IH]; [reflexivity|].
  cbn [byteLength length]. apply N.ltb_lt in Hu. rewrite Hu, IH. lia.
Qed.

(** X29: the content check refuses as empty exactly the strings made of
    white space only; it refuses every string of more than 1,000,000 code
    units and accepts every other string of at most 333,333 code units; and
    for a string of ASCII characters the limit is 1,000,000 characters. *)
Theorem contents_that_pass content :
  (validateContent content = Some empty_content <->
   Forall (fun u => isWhiteSpace u = true) content)
  /\ (MAX_CONTENT_LENGTH < Z.of_nat (length content) ->
      validateContent content <> None)
  /\ (Exists (fun u => isWhiteSpace u = false) content ->
      3 * Z.of_nat (length content) <= MAX_CONTENT_LENGTH ->
      validateContent content = None)
  /\ (Exists (fun u => isWhiteSpace u = false) content ->
      Forall (fun u => (u < 128)%N) content ->
      (validateContent content = None <->
       Z.of_nat (length content) <= MAX_CONTENT_LENGTH)).
Proof.
  pose proof (byteLength_bounds (length content) content (Nat.le_refl _))
    as Hbytes.
  assert (Hblank : Exists (fun u => isWhiteSpace u = false) content ->
                   trim content <> []).
  { intros Hex Hnil%trim_nil. apply Exists_exists in Hex as (u & Hin & Hu).
    rewrite Forall_forall in Hnil.
    specialize (Hnil u Hin). congruence. }
  split; [|split; [|split]].
  - rewrite <- trim_nil. unfold validateContent.
    destruct (trim content) as [|u rest]; simpl.
    + split; reflexivity.
    + split; [|discriminate].
      destruct (byteLength content >? MAX_CONTENT_LENGTH); discriminate.
  - intros Hlong Hok%validateContent_None. lia.
  - intros Hex Hshort. apply validateContent_None.
    split; [apply Hblank, Hex|lia].
  - intros Hex Hascii. rewrite validateContent_None.
    rewrite (byteLength_ascii content Hascii).
    split; [tauto|]. intros Hle. split; [apply Hblank, Hex|exact Hle].
Qed.

Lemma contents_that_pass_witness :
  (validateContent [9; 10; 32; 160; 8232; 12288; 65279]%N = Some empty_content
   <-> Forall (fun u => isWhiteSpace u = true)
         [9; 10; 32; 160; 8232; 12288; 65279]%N)
  /\ validateContent (code_units "  hello  ") = None.
Proof.
  destruct (contents_that_pass [9; 10; 32; 160; 8232; 12288; 65279]%N)
    as (Hblank & _).
  destruct (contents_that_pass (code_units "  hello  "))
    as (_ & _ & Hshort & _).
  split; [exact Hblank|]. apply Hshort.
  - right. right. left. reflexivity.
  - unfold MAX_CONTENT_LENGTH. simpl. lia.
Defined.

(** ** Calls that overlap, and calls that run alone *)










(** ** Two calls of [insertMessage] that overlap *)















